(** * Account aggregate on Equinox / Emmett: codec, fold, decisions and the
      event-store adapter of [src/emmett.ts], embedded in Rocq.

    The TypeScript is embedded at two levels.

    - The typed level follows the TypeScript types: [Events.Event],
      [Fold.State], [Fold.evolve], [Fold.fold] and the decision functions of
      [Decide].  A JavaScript [number] is an IEEE 754 binary64 value
      ([spec_float] at precision 53), with the rounding, the infinities and
      NaN the language has.
    - The codec works on run-time values ([jsval]): it reads properties,
      tests ["data" in event], and goes through [JSON.stringify] and
      [JSON.parse], whose text format is modelled character by character,
      numbers included (Number::toString and the rounding of a decimal
      literal).
    - [RunTime] holds [evolve] and [fold] on run-time values, as they run
      on an event that came out of the codec: the spread of the state and
      the operators [+] and [-] with the conversions they make.

    A JavaScript string is a sequence of UTF-16 code units ([list N]);
    [js "..."] writes one from a literal.  A function that can throw returns
    a [result].

    The event store is explicit state: a [World] holds the events of every
    stream and the calls made so far.  The Decider belongs to the library
    [@equinox-js/core]; its load, transact and query are modelled from
    section 4.4 of the specification, for a single writer.  The service and
    the adapter ([aggregateStream], [readStream], [appendToStream]) are
    embedded from the source on top of it. *)

From Stdlib Require Import ZArith NArith Bool Ascii String List Lia.
From Stdlib Require Import Floats.SpecFloat.
From Stdlib Require DecimalN DecimalPos DecimalFacts.
Import ListNotations.

Local Open Scope Z_scope.

(* ------------------------------------------------------------------ *)
(** ** Strings *)

Definition char16 := N.
Definition jstring := list char16.

Definition ch (a : ascii) : char16 := N_of_ascii a.

(** The double quote character. *)
Definition dquote : char16 := 34%N.

Definition js (s : string) : jstring := List.map ch (list_ascii_of_string s).

Fixpoint str_eqb (a b : jstring) : bool :=
  match a, b with
  | [], [] => true
  | x :: a', y :: b' => N.eqb x y && str_eqb a' b'
  | _, _ => false
  end.

(* ------------------------------------------------------------------ *)
(** ** Numbers: IEEE 754 binary64 *)

Definition prec : Z := 53.
Definition emax : Z := 1024.

Definition number := spec_float.

Definition num_of_Z (z : Z) : number := binary_normalize prec emax z 0 false.

Definition NaN : number := S754_nan.
Definition Infinity : number := S754_infinity false.
Definition negative_zero : number := S754_zero true.

(** [a + b], [a - b], [a < b], [a > b] and [a == b] on numbers. *)
Definition num_add (a b : number) : number := SFadd prec emax a b.
Definition num_sub (a b : number) : number := SFsub prec emax a b.
Definition num_lt (a b : number) : bool := SFltb a b.
Definition num_gt (a b : number) : bool := SFltb b a.
Definition num_eq (a b : number) : bool := SFeqb a b.

Definition is_finite (x : number) : bool :=
  match x with
  | S754_zero _ | S754_finite _ _ _ => true
  | S754_infinity _ | S754_nan => false
  end.

(** The representation is a binary64 value: a finite number has its
    mantissa of at most 53 bits at the exponent the format gives it.  Every
    JavaScript number is one. *)
Definition is_number (x : number) : bool := valid_binary prec emax x.

(* ------------------------------------------------------------------ *)
(** ** Exceptions *)

Inductive exn :=
| TypeError
| SyntaxError
| Error (message : jstring).

Inductive result (A : Type) :=
| Ok (a : A)
| Throw (e : exn).
Arguments Ok {A} a.
Arguments Throw {A} e.

Definition bind {A B} (r : result A) (k : A -> result B) : result B :=
  match r with
  | Ok a => k a
  | Throw e => Throw e
  end.

Notation "'let*' x ':=' r 'in' k" := (bind r (fun x => k))
  (at level 10, x pattern, r at level 100, k at level 200).

(* ------------------------------------------------------------------ *)
(** ** The typed domain *)

(** [Fold.AccountStatus]: ["NonExistent" | "Open" | "Closed"]. *)
Inductive AccountStatus := NonExistent | Open | Closed.

Module Events.

(** [Events.Event], a union discriminated by [type]; the payload fields
    are the constructor arguments. *)
Inductive Event :=
| Opened (status : AccountStatus) (name : jstring) (amount : number)
| Deposited (amount : number)
| Withdrawn (amount : number).

End Events.

Module Fold.
Import Events.

Record State := mkState {
  status : AccountStatus;
  name : jstring;
  amount : number
}.

Definition initial : State :=
  {| status := NonExistent; name := js ""; amount := num_of_Z 0 |}.

(** The spread [{...state, f: v}] copies every field and replaces [f]. *)
Definition evolve (state : State) (event : Event) : State :=
  match event with
  | Opened _ event_name _ =>
      {| status := Open; name := event_name; amount := amount state |}
  | Deposited event_amount =>
      {| status := status state; name := name state;
         amount := num_add (amount state) event_amount |}
  | Withdrawn event_amount =>
      {| status := status state; name := name state;
         amount := num_sub (amount state) event_amount |}
  end.

(** [events.reduce(evolve, state)]. *)
Definition fold (state : State) (events : list Event) : State :=
  fold_left evolve events state.

End Fold.

Module Decide.
Import Events Fold.

Definition status_eqb (a b : AccountStatus) : bool :=
  match a, b with
  | NonExistent, NonExistent | Open, Open | Closed, Closed => true
  | _, _ => false
  end.

Definition open (accountId : jstring) (name : jstring) (state : State)
  : result (list Event) :=
  Ok [Opened Open name (num_of_Z 0)].

Definition deposit (amount : number) (state : State) : result (list Event) :=
  if negb (status_eqb (status state) Open)
  then Throw (Error (js "Account is not open"))
  else Ok [Deposited amount].

Definition withdraw (amount : number) (state : State) : result (list Event) :=
  if negb (status_eqb (status state) Open)
  then Throw (Error (js "Account is not open"))
  else if num_lt (Fold.amount state) amount
  then Throw (Error (js "Insufficient funds"))
  else Ok [Withdrawn amount].

End Decide.

(* ------------------------------------------------------------------ *)
(** ** Run-time values *)

(** The values the codec handles: primitives, arrays and plain objects.
    An object is its own properties in property order.  These are plain
    data: a property holds a value, never a function or an accessor, no
    object contains itself, and there is no BigInt; so there is no value
    here on which [JSON.stringify] throws. *)
#[warnings="-register-all"]
Inductive jsval :=
| JUndefined
| JNull
| JBool (b : bool)
| JNumber (x : number)
| JString (s : jstring)
| JArray (items : list jsval)
| JObject (props : list (jstring * jsval)).

Fixpoint lookup (k : jstring) (props : list (jstring * jsval)) : option jsval :=
  match props with
  | [] => None
  | (k', v) :: rest => if str_eqb k k' then Some v else lookup k rest
  end.

(** [v.k] for the property names the codec reads ([type], [data], [status],
    [name], [amount]): none of them is inherited from a prototype or is a
    property of a string or an array, so only a plain object can hold one;
    reading from [undefined] or [null] throws. *)
Definition get (v : jsval) (k : jstring) : result jsval :=
  match v with
  | JUndefined | JNull => Throw TypeError
  | JObject props =>
      match lookup k props with
      | Some x => Ok x
      | None => Ok JUndefined
      end
  | _ => Ok JUndefined
  end.

(** [k in v], for the same property names; the right operand must be an
    object. *)
Definition has_property (k : jstring) (v : jsval) : result bool :=
  match v with
  | JObject props =>
      match lookup k props with
      | Some _ => Ok true
      | None => Ok false
      end
  | JArray _ => Ok false
  | _ => Throw TypeError
  end.

(** ToBoolean. *)
Definition truthy (v : jsval) : bool :=
  match v with
  | JUndefined | JNull => false
  | JBool b => b
  | JNumber (S754_zero _) | JNumber S754_nan => false
  | JNumber _ => true
  | JString [] => false
  | JString _ => true
  | JArray _ | JObject _ => true
  end.

(** [a || b]. *)
Definition or_else (a b : jsval) : jsval := if truthy a then a else b.

(** [v === "literal"]. *)
Definition is_string (v : jsval) (literal : jstring) : bool :=
  match v with
  | JString s => str_eqb s literal
  | _ => false
  end.

(* ------------------------------------------------------------------ *)
(** ** Decimal text of numbers *)

(** The number [(-1)^neg * c * 10^q] rounded to the nearest binary64 value,
    ties to even: the value of a decimal literal. *)
Definition decimal_to_number (neg : bool) (c : Z) (q : Z) : number :=
  match c with
  | Z0 => S754_zero neg
  | Zpos p =>
      if 0 <=? q
      then binary_round prec emax neg (p * Z.to_pos (10 ^ q)) 0
      else SFdiv prec emax (S754_finite neg p 0)
                           (S754_finite false (Z.to_pos (10 ^ (- q))) 0)
  | Zneg _ => S754_nan
  end.

Fixpoint uint_chars (d : Decimal.uint) : jstring :=
  match d with
  | Decimal.Nil => []
  | Decimal.D0 d => ch "0" :: uint_chars d
  | Decimal.D1 d => ch "1" :: uint_chars d
  | Decimal.D2 d => ch "2" :: uint_chars d
  | Decimal.D3 d => ch "3" :: uint_chars d
  | Decimal.D4 d => ch "4" :: uint_chars d
  | Decimal.D5 d => ch "5" :: uint_chars d
  | Decimal.D6 d => ch "6" :: uint_chars d
  | Decimal.D7 d => ch "7" :: uint_chars d
  | Decimal.D8 d => ch "8" :: uint_chars d
  | Decimal.D9 d => ch "9" :: uint_chars d
  end.

(** The decimal digits of a natural number, without leading zeros. *)
Definition digits (n : N) : jstring := uint_chars (N.to_uint n).

(** The positive value [m * 2^e] written exactly as [W * 10^E]. *)
Definition exact_decimal (m : positive) (e : Z) : Z * Z :=
  if 0 <=? e then (Zpos m * 2 ^ e, 0) else (Zpos m * 5 ^ (- e), e).

Definition digit_count (s : Z) : Z := Z.of_nat (List.length (digits (Z.to_N s))).

(** Whether the digits of [s], with the decimal point after the first [n]
    of them, denote a value that rounds to [x]: the value is
    [s * 10^(n - k)] for the number [k] of digits of [s]. *)
Definition reads_as (x : number) (s n : Z) : bool :=
  SFeqb (decimal_to_number false s (n - digit_count s)) x.

(** Number::toString, step 5: integers [s] and [n] such that [s] has [k]
    digits, [s * 10^(n-k)] rounds to [x], and [k] is as small as possible;
    of two such [s] the one closer to [x].  [W] holds the [K] digits of
    the exact decimal expansion of [x]; the candidates with [k] digits are
    its first [k] digits and the next integer.  [shortest] tries [k],
    [k+1], ... up to [K], where the first candidate is [x] itself. *)
Fixpoint shortest (fuel : nat) (k : Z) (x : number) (W K n : Z) : Z * Z :=
  let b := 10 ^ (K - k) in
  let lo := W / b in
  let r := W mod b in
  let low_first := (2 * r <? b) || ((2 * r =? b) && Z.even lo) in
  let up := if lo + 1 =? 10 ^ k then (1, n + 1) else (lo + 1, n) in
  match fuel with
  | O => (lo, n)
  | S fuel =>
      if reads_as x lo n && (low_first || negb (reads_as x (fst up) (snd up)))
      then (lo, n)
      else if reads_as x (fst up) (snd up) then up
      else shortest fuel (k + 1) x W K n
  end.

Definition zeros (n : Z) : jstring := repeat (ch "0") (Z.to_nat n).

(** The exponent part Number::toString writes. *)
Definition exponent_text (e : Z) : jstring :=
  js "e" ++ (if e <? 0 then js "-" else js "+") ++ digits (Z.to_N (Z.abs e)).

(** Number::toString, steps 6 to 10, for a positive finite number with
    digits [s] and decimal exponent [n]. *)
Definition format_digits (s n : Z) : jstring :=
  let ds := digits (Z.to_N s) in
  let k := Z.of_nat (List.length ds) in
  if (k <=? n) && (n <=? 21) then ds ++ zeros (n - k)
  else if (0 <? n) && (n <=? 21) then
    firstn (Z.to_nat n) ds ++ js "." ++ skipn (Z.to_nat n) ds
  else if (-6 <? n) && (n <=? 0) then js "0." ++ zeros (- n) ++ ds
  else
    if k =? 1 then ds ++ exponent_text (n - 1)
    else firstn 1 ds ++ js "." ++ skipn 1 ds ++ exponent_text (n - 1).

Definition positive_toString (m : positive) (e : Z) : jstring :=
  let '(W, E) := exact_decimal m e in
  let K := digit_count W in
  let '(s, n) := shortest (Z.to_nat K) 1 (S754_finite false m e) W K (K + E) in
  format_digits s n.

(** Number::toString in radix 10. *)
Definition Number_toString (x : number) : jstring :=
  match x with
  | S754_nan => js "NaN"
  | S754_zero _ => js "0"
  | S754_infinity false => js "Infinity"
  | S754_infinity true => js "-Infinity"
  | S754_finite false m e => positive_toString m e
  | S754_finite true m e => js "-" ++ positive_toString m e
  end.

(* ------------------------------------------------------------------ *)
(** ** JSON text *)

Module JSON.
Local Open Scope N_scope.

(** *** Writing *)

Definition hex_digit (d : N) : char16 :=
  if d <? 10 then ch "0" + d else ch "a" + (d - 10).

(** UnicodeEscape: [\u] and four lower-case hexadecimal digits. *)
Definition unicode_escape (c : char16) : jstring :=
  [ch "\"; ch "u"; hex_digit (c / 4096); hex_digit ((c / 256) mod 16);
   hex_digit ((c / 16) mod 16); hex_digit (c mod 16)].

Definition is_high_surrogate (c : char16) : bool := (55296 <=? c) && (c <=? 56319).
Definition is_low_surrogate (c : char16) : bool := (56320 <=? c) && (c <=? 57343).

(** One code unit that is not half of a surrogate pair. *)
Definition quote_unit (c : char16) : jstring :=
  if c =? 8 then js "\b"
  else if c =? 9 then js "\t"
  else if c =? 10 then js "\n"
  else if c =? 12 then js "\f"
  else if c =? 13 then js "\r"
  else if c =? dquote then [ch "\"; dquote]
  else if c =? ch "\" then js "\\"
  else if (c <? 32) || is_high_surrogate c || is_low_surrogate c
  then unicode_escape c
  else [c].

(** The characters of QuoteJSONString between the quotes: a surrogate
    pair is copied, a lone surrogate escaped. *)
Fixpoint quote_chars (s : jstring) : jstring :=
  match s with
  | [] => []
  | c :: rest =>
      match rest with
      | d :: rest' =>
          if is_high_surrogate c && is_low_surrogate d
          then c :: d :: quote_chars rest'
          else quote_unit c ++ quote_chars rest
      | [] => quote_unit c
      end
  end.

Definition quote (s : jstring) : jstring :=
  dquote :: quote_chars s ++ [dquote].

Fixpoint join (sep : jstring) (parts : list jstring) : jstring :=
  match parts with
  | [] => []
  | [p] => p
  | p :: rest => p ++ sep ++ join sep rest
  end.

(** A number in JSON text: NaN and the infinities are written [null]. *)
Definition number_text (x : number) : jstring :=
  if is_finite x then Number_toString x else js "null".

(** SerializeJSONProperty without indentation; [None] is [undefined].
    A property whose value serializes to [undefined] is left out of an
    object, and written [null] in an array. *)
Fixpoint serialize (v : jsval) : option jstring :=
  match v with
  | JUndefined => None
  | JNull => Some (js "null")
  | JBool true => Some (js "true")
  | JBool false => Some (js "false")
  | JNumber x => Some (number_text x)
  | JString s => Some (quote s)
  | JArray items =>
      let fix elements (l : list jsval) : list jstring :=
        match l with
        | [] => []
        | i :: l' =>
            match serialize i with
            | Some t => t
            | None => js "null"
            end :: elements l'
        end in
      Some (js "[" ++ join (js ",") (elements items) ++ js "]")
  | JObject props =>
      let fix members (l : list (jstring * jsval)) : list jstring :=
        match l with
        | [] => []
        | (k, x) :: l' =>
            match serialize x with
            | Some t => (quote k ++ js ":" ++ t) :: members l'
            | None => members l'
            end
        end in
      Some (js "{" ++ join (js ",") (members props) ++ js "}")
  end.

(** [JSON.stringify(v)]. *)
Definition stringify (v : jsval) : jsval :=
  match serialize v with
  | Some t => JString t
  | None => JUndefined
  end.

(** *** Reading *)

Definition is_ws (c : char16) : bool :=
  (c =? 32) || (c =? 9) || (c =? 10) || (c =? 13).

Fixpoint skip_ws (s : jstring) : jstring :=
  match s with
  | c :: rest => if is_ws c then skip_ws rest else s
  | [] => []
  end.

Definition is_digit (c : char16) : bool := (ch "0" <=? c) && (c <=? ch "9").

Definition hex_value (c : char16) : option N :=
  if is_digit c then Some (c - ch "0")
  else if (ch "a" <=? c) && (c <=? ch "f") then Some (c - ch "a" + 10)
  else if (ch "A" <=? c) && (c <=? ch "F") then Some (c - ch "A" + 10)
  else None.

Definition hex4 (a b c d : char16) : option char16 :=
  match hex_value a, hex_value b, hex_value c, hex_value d with
  | Some x, Some y, Some z, Some w => Some (((x * 16 + y) * 16 + z) * 16 + w)
  | _, _, _, _ => None
  end.

(** The character a single-character escape stands for. *)
Definition unescape (e : char16) : option char16 :=
  if e =? dquote then Some (dquote)
  else if e =? ch "\" then Some (ch "\")
  else if e =? ch "/" then Some (ch "/")
  else if e =? ch "b" then Some 8
  else if e =? ch "f" then Some 12
  else if e =? ch "n" then Some 10
  else if e =? ch "r" then Some 13
  else if e =? ch "t" then Some 9
  else None.

Definition cons_to {A} (c : char16) (r : option (jstring * A)) : option (jstring * A) :=
  match r with
  | Some (s, x) => Some (c :: s, x)
  | None => None
  end.

(** A string literal after its opening quote: the string and the text
    after the closing quote. *)
Fixpoint read_string (s : jstring) : option (jstring * jstring) :=
  match s with
  | [] => None
  | c :: rest =>
      if c =? dquote then Some ([], rest)
      else if c =? ch "\" then
        match rest with
        | [] => None
        | e :: rest' =>
            if e =? ch "u" then
              match rest' with
              | h1 :: h2 :: h3 :: h4 :: rest'' =>
                  match hex4 h1 h2 h3 h4 with
                  | Some u => cons_to u (read_string rest'')
                  | None => None
                  end
              | _ => None
              end
            else
              match unescape e with
              | Some u => cons_to u (read_string rest')
              | None => None
              end
        end
      else if c <? 32 then None
      else cons_to c (read_string rest)
  end.

(** **** Numbers *)

Definition is_number_char (c : char16) : bool :=
  is_digit c || (c =? ch "-") || (c =? ch "+") || (c =? ch ".")
  || (c =? ch "e") || (c =? ch "E").

Fixpoint span (p : char16 -> bool) (s : jstring) : jstring * jstring :=
  match s with
  | c :: rest =>
      if p c then let '(a, b) := span p rest in (c :: a, b) else ([], s)
  | [] => ([], [])
  end.

(** The value of a run of decimal digits, after digits of value [acc]. *)
Definition digits_from (acc : Z) (ds : jstring) : Z :=
  fold_left (fun acc c => (acc * 10 + Z.of_N (c - ch "0"))%Z) ds acc.

Definition digits_value (ds : jstring) : Z := digits_from 0%Z ds.

(** A text at which a run of digits stops. *)
Definition stops (b : jstring) : Prop :=
  match b with
  | [] => True
  | c :: _ => is_digit c = false
  end.

(** The exponent part, [e], [e+] or [e-] and at least one digit, or
    nothing. *)
Definition read_exponent (s : jstring) : option Z :=
  match s with
  | [] => Some 0%Z
  | c :: rest =>
      if (c =? ch "e") || (c =? ch "E") then
        let '(negative, rest') :=
          match rest with
          | d :: r => if d =? ch "-" then (true, r)
                      else if d =? ch "+" then (false, r) else (false, rest)
          | [] => (false, rest)
          end in
        let '(ds, tail) := span is_digit rest' in
        match ds, tail with
        | _ :: _, [] =>
            Some (if negative then - digits_value ds else digits_value ds)%Z
        | _, _ => None
        end
      else None
  end.

(** The fraction part, [.] and at least one digit, or nothing, followed
    by the exponent part: the fraction digits and the exponent. *)
Definition read_fraction (s : jstring) : option (jstring * Z) :=
  match s with
  | c :: rest =>
      if c =? ch "." then
        let '(ds, tail) := span is_digit rest in
        match ds, read_exponent tail with
        | _ :: _, Some e => Some (ds, e)
        | _, _ => None
        end
      else
        match read_exponent s with
        | Some e => Some ([], e)
        | None => None
        end
  | [] => Some ([], 0%Z)
  end.

(** A whole JSON number: an optional minus sign, the integer part (a
    single 0, or digits that do not start with 0), then the optional
    fraction and exponent parts. *)
Definition read_number (token : jstring) : option number :=
  let '(negative, body) :=
    match token with
    | c :: rest => if c =? ch "-" then (true, rest) else (false, token)
    | [] => (false, token)
    end in
  let '(int, tail) := span is_digit body in
  match int with
  | [] => None
  | d :: more =>
      if (d =? ch "0") && negb (match more with [] => true | _ => false end)
      then None
      else
        match read_fraction tail with
        | Some (frac, e) =>
            Some (decimal_to_number negative
                    (digits_value (int ++ frac))
                    (e - Z.of_nat (List.length frac))%Z)
        | None => None
        end
  end.

(** **** Objects *)

(** A canonical array index: property keys that are one come first in
    property order, in ascending order. *)
Definition array_index (k : jstring) : option N :=
  match k with
  | [] => None
  | d :: more =>
      if forallb is_digit k
         && negb ((d =? ch "0") && negb (match more with [] => true | _ => false end))
         && (Z.to_N (digits_value k) <? 4294967295)
      then Some (Z.to_N (digits_value k))
      else None
  end.

Fixpoint replace_prop (k : jstring) (v : jsval) (props : list (jstring * jsval))
  : list (jstring * jsval) :=
  match props with
  | [] => []
  | (k', v') :: rest =>
      if str_eqb k k' then (k', v) :: rest else (k', v') :: replace_prop k v rest
  end.

Fixpoint insert_index (i : N) (k : jstring) (v : jsval) (props : list (jstring * jsval))
  : list (jstring * jsval) :=
  match props with
  | [] => [(k, v)]
  | (k', v') :: rest =>
      match array_index k' with
      | Some j => if j <? i then (k', v') :: insert_index i k v rest
                  else (k, v) :: props
      | None => (k, v) :: props
      end
  end.

(** CreateDataProperty on a plain object: an existing key keeps its
    place and takes the new value. *)
Definition set_prop (props : list (jstring * jsval)) (k : jstring) (v : jsval)
  : list (jstring * jsval) :=
  match lookup k props with
  | Some _ => replace_prop k v props
  | None =>
      match array_index k with
      | Some i => insert_index i k v props
      | None => props ++ [(k, v)]
      end
  end.

Fixpoint starts_with (p s : jstring) : option jstring :=
  match p, s with
  | [], _ => Some s
  | a :: p', b :: s' => if a =? b then starts_with p' s' else None
  | _ :: _, [] => None
  end.

(** **** Values *)

(** [read_value fuel s] reads one JSON value at the start of [s], after
    white space, and returns it with the rest of the text;
    [read_members] and [read_elements] read what follows the [{] or
    [,] of an object and the [[] or [,] of an array.  Every call uses up
    one unit of [fuel] and at least one character. *)
Fixpoint read_value (fuel : nat) (s : jstring) : option (jsval * jstring) :=
  match fuel with
  | O => None
  | S fuel =>
      match skip_ws s with
      | [] => None
      | c :: rest =>
          if c =? ch "{" then
            match skip_ws rest with
            | d :: rest' =>
                if d =? ch "}" then Some (JObject [], rest')
                else read_members fuel [] (d :: rest')
            | [] => None
            end
          else if c =? ch "[" then
            match skip_ws rest with
            | d :: rest' =>
                if d =? ch "]" then Some (JArray [], rest')
                else read_elements fuel [] (d :: rest')
            | [] => None
            end
          else if c =? dquote then
            match read_string rest with
            | Some (str, r) => Some (JString str, r)
            | None => None
            end
          else if c =? ch "t" then
            match starts_with (js "rue") rest with
            | Some r => Some (JBool true, r)
            | None => None
            end
          else if c =? ch "f" then
            match starts_with (js "alse") rest with
            | Some r => Some (JBool false, r)
            | None => None
            end
          else if c =? ch "n" then
            match starts_with (js "ull") rest with
            | Some r => Some (JNull, r)
            | None => None
            end
          else
            let '(token, r) := span is_number_char (c :: rest) in
            match read_number token with
            | Some x => Some (JNumber x, r)
            | None => None
            end
      end
  end
with read_members (fuel : nat) (acc : list (jstring * jsval)) (s : jstring)
  : option (jsval * jstring) :=
  match fuel with
  | O => None
  | S fuel =>
      match skip_ws s with
      | c :: rest =>
          if c =? dquote then
            match read_string rest with
            | Some (k, r) =>
                match skip_ws r with
                | c2 :: r2 =>
                    if c2 =? ch ":" then
                      match read_value fuel r2 with
                      | Some (v, r3) =>
                          match skip_ws r3 with
                          | c3 :: r4 =>
                              if c3 =? ch "," then read_members fuel (set_prop acc k v) r4
                              else if c3 =? ch "}" then Some (JObject (set_prop acc k v), r4)
                              else None
                          | [] => None
                          end
                      | None => None
                      end
                    else None
                | [] => None
                end
            | None => None
            end
          else None
      | [] => None
      end
  end
with read_elements (fuel : nat) (acc : list jsval) (s : jstring)
  : option (jsval * jstring) :=
  match fuel with
  | O => None
  | S fuel =>
      match read_value fuel s with
      | Some (v, r) =>
          match skip_ws r with
          | c :: r' =>
              if c =? ch "," then read_elements fuel (acc ++ [v]) r'
              else if c =? ch "]" then Some (JArray (acc ++ [v]), r')
              else None
          | [] => None
          end
      | None => None
      end
  end.

(** ToString.  An array is its elements joined by commas; a plain object is
    the text [[object Object]] that [Object.prototype.toString] gives.  An
    object with an own property [toString] has lost that method (a value
    here holds data, never a function), and its [valueOf] returns the
    object itself: the conversion throws a TypeError. *)
Fixpoint to_string (v : jsval) : result jstring :=
  match v with
  | JUndefined => Ok (js "undefined")
  | JNull => Ok (js "null")
  | JBool true => Ok (js "true")
  | JBool false => Ok (js "false")
  | JNumber x => Ok (Number_toString x)
  | JString s => Ok s
  | JArray items =>
      let fix elements (l : list jsval) : result (list jstring) :=
        match l with
        | [] => Ok []
        | i :: l' =>
            let* text :=
              match i with
              | JUndefined | JNull => Ok []
              | _ => to_string i
              end in
            let* rest := elements l' in
            Ok (text :: rest)
        end in
      let* parts := elements items in
      Ok (join (js ",") parts)
  | JObject props =>
      match lookup (js "toString") props with
      | Some _ => Throw TypeError
      | None => Ok (js "[object Object]")
      end
  end.

(** [JSON.parse(v)]: the argument is converted to a string, which must be
    one JSON value between optional white space; anything else is a
    SyntaxError. *)
Definition parse (v : jsval) : result jsval :=
  let* text := to_string v in
  match read_value (S (List.length text)) text with
  | Some (x, rest) =>
      match skip_ws rest with
      | [] => Ok x
      | _ :: _ => Throw SyntaxError
      end
  | None => Throw SyntaxError
  end.

End JSON.

(* ------------------------------------------------------------------ *)
(** ** The codec *)

Module Codec.
Import Events.

(** [Events.codec.decode]. *)
Definition decode (event : jsval) : result jsval :=
  let* event_data := get event (js "data") in
  let* data := JSON.parse (or_else event_data (JString (js "{}"))) in
  let* event_type := get event (js "type") in
  if is_string event_type (js "Opened") then
    let* data_status := get data (js "status") in
    let* data_name := get data (js "name") in
    let* data_amount := get data (js "amount") in
    Ok (JObject [(js "type", event_type);
                 (js "data", JObject [(js "status", data_status);
                                      (js "name", data_name);
                                      (js "amount", data_amount)])])
  else if is_string event_type (js "Deposited") then
    let* data_amount := get data (js "amount") in
    Ok (JObject [(js "type", event_type);
                 (js "data", JObject [(js "amount", data_amount)])])
  else if is_string event_type (js "Withdrawn") then
    let* data_amount := get data (js "amount") in
    Ok (JObject [(js "type", event_type);
                 (js "data", JObject [(js "amount", data_amount)])])
  else Ok JUndefined.

(** [Events.codec.encode]. *)
Definition encode (event : jsval) : result jsval :=
  let* has_data := has_property (js "data") event in
  let* data :=
    if has_data
    then let* event_data := get event (js "data") in Ok (JSON.stringify event_data)
    else Ok JUndefined in
  let* event_type := get event (js "type") in
  Ok (JObject [(js "type", event_type); (js "data", data)]).

(** The run-time value of a typed event. *)
Definition status_name (s : AccountStatus) : jstring :=
  match s with
  | NonExistent => js "NonExistent"
  | Open => js "Open"
  | Closed => js "Closed"
  end.

Definition value_of (e : Event) : jsval :=
  match e with
  | Opened status name amount =>
      JObject [(js "type", JString (js "Opened"));
               (js "data", JObject [(js "status", JString (status_name status));
                                    (js "name", JString name);
                                    (js "amount", JNumber amount)])]
  | Deposited amount =>
      JObject [(js "type", JString (js "Deposited"));
               (js "data", JObject [(js "amount", JNumber amount)])]
  | Withdrawn amount =>
      JObject [(js "type", JString (js "Withdrawn"));
               (js "data", JObject [(js "amount", JNumber amount)])]
  end.

(** A transport event [{ type, data }]; [None] is a [data] that is
    [undefined]. *)
Definition transport (type : jstring) (data : option jstring) : jsval :=
  JObject [(js "type", JString type);
           (js "data", match data with
                       | Some text => JString text
                       | None => JUndefined
                       end)].

End Codec.

(* ------------------------------------------------------------------ *)
(** ** The Decider *)

Section Decider.

(** The event and state types of a category, with the fold and the
    initial state it was created with. *)
Context {E S : Type}.

Record Category := mkCategory {
  category_fold : S -> list E -> S;
  category_initial : S
}.

(** What a call leaves behind: a Decider transaction with the outcome of
    its decision function, and an append to a stream at an expected
    version. *)
Inductive Call :=
| Transaction (stream : jstring) (decision : result (list E))
| Append (stream : jstring) (expectedVersion : nat) (events : list E).

(** The store: the events of every stream, and the calls made so far. *)
Record World := mkWorld {
  streams : jstring -> list E;
  calls : list Call
}.

Definition events_of (w : World) (stream : jstring) : list E := streams w stream.

Definition version_of (w : World) (stream : jstring) : nat :=
  List.length (events_of w stream).

Definition append_events (w : World) (stream : jstring) (events : list E)
  : jstring -> list E :=
  fun s => if str_eqb s stream then streams w s ++ events else streams w s.

Record Decider := forStream {
  decider_category : Category;
  decider_stream : jstring
}.

(** Modelled from the spec: the Decider of the library [@equinox-js/core],
    which is not among the sources (spec 4.4).  Loading reads all events
    of the stream and folds them from the initial state to the current
    state and version. *)
Definition load (d : Decider) (w : World) : S * nat :=
  (category_fold (decider_category d) (category_initial (decider_category d))
     (events_of w (decider_stream d)),
   version_of w (decider_stream d)).

(** Modelled from the spec: [decider.transact(decide)] (spec 4.4).  The
    decision function runs on the loaded state; its error is the
    transaction's error; zero events commit nothing and keep the
    version; otherwise the events are appended at the version read, and
    the stream's new version is that version plus their number.  The
    call itself gives no value back when it succeeds.  No other writer
    runs between the load and the append here, so the append is always
    accepted and the retry on conflict is never entered. *)
Definition transact (d : Decider) (decide : S -> result (list E)) (w : World)
  : result unit * World :=
  let '(state, version) := load d w in
  let stream := decider_stream d in
  match decide state with
  | Throw e =>
      (Throw e, mkWorld (streams w) (calls w ++ [Transaction stream (Throw e)]))
  | Ok [] =>
      (Ok tt, mkWorld (streams w) (calls w ++ [Transaction stream (Ok [])]))
  | Ok events =>
      (Ok tt,
       mkWorld (append_events w stream events)
               (calls w ++ [Transaction stream (Ok events);
                            Append stream version events]))
  end.

(** Modelled from the spec: [decider.query(render)] (spec 4.4), the same
    load without a decision or an append. *)
Definition query {A} (d : Decider) (render : S -> A) (w : World) : A :=
  render (fst (load d w)).

End Decider.

Arguments Category : clear implicits.
Arguments Call : clear implicits.
Arguments World : clear implicits.
Arguments Decider : clear implicits.

(* ------------------------------------------------------------------ *)
(** ** The service *)

Module Service.
Import Events.

(** [DynamoStoreCategory.create(context, Stream.category, ..., Fold.fold,
    Fold.initial, ...)].  The codec the source passes is not part of this
    category: a stream holds the typed events as they were submitted, which
    is what the program reads back for the events the codec gives back as
    they were (an amount that is a finite number other than -0); for the
    others see [read_back]. *)
Definition category : Category Event Fold.State :=
  mkCategory Fold.fold Fold.initial.

Record Service := mkService {
  resolve : jstring -> Decider Event Fold.State
}.

Definition open (service : Service) (accountId name : jstring)
  (w : World Event) : result unit * World Event :=
  transact (resolve service accountId) (Decide.open accountId name) w.

Definition deposit (service : Service) (accountId : jstring) (amount : number)
  (w : World Event) : result unit * World Event :=
  transact (resolve service accountId) (Decide.deposit amount) w.

Definition withdraw (service : Service) (accountId : jstring) (amount : number)
  (w : World Event) : result unit * World Event :=
  transact (resolve service accountId) (Decide.withdraw amount) w.

Definition readBalance (service : Service) (accountId : jstring)
  (w : World Event) : Fold.State :=
  query (resolve service accountId) (fun state => state) w.

(** [Service.create(accountId, context)]; [streamId] is
    [StreamId.create(accountId.toString())].  The resolver ignores its
    argument. *)
Definition create (streamId : jstring) : Service :=
  mkService (fun _ => forStream category streamId).

End Service.

(* ------------------------------------------------------------------ *)
(** ** The event-store adapter *)

Section EventStore.

Context {E S : Type}.

(** [AccountId.parse] and [StreamId.create] of [@equinox-js/core], which
    are not among the sources: each returns its identifier or throws. *)
Variable AccountId_parse : jstring -> result jstring.
Variable StreamId_create : jstring -> result jstring.

(** The category [getDynamoDbEventStore] is given. *)
Variable mdynamoStoreCategory : Category E S.

Record AggregateStreamOptions (State EventType ReadOptions : Type) := {
  evolve : State -> EventType -> State;
  getInitialState : unit -> State;
  read : option ReadOptions
}.
Arguments evolve {State EventType ReadOptions}.
Arguments getInitialState {State EventType ReadOptions}.

Record AggregateStreamResult (State : Type) := {
  currentStreamVersion : N;
  state : State
}.
Arguments Build_AggregateStreamResult {State}.

Record ReadStreamResult (EventType : Type) := {
  read_currentStreamVersion : N;
  events : list EventType
}.
Arguments Build_ReadStreamResult {EventType}.

Record AppendToStreamResult := {
  nextExpectedStreamVersion : N
}.

Definition aggregateStream {State EventType ReadOptions : Type}
  (streamName : jstring)
  (options : AggregateStreamOptions State EventType ReadOptions)
  (w : World E) : result (AggregateStreamResult State) * World E :=
  let state := getInitialState options tt in
  let currentStreamVersion := 0%N in
  (Ok (Build_AggregateStreamResult currentStreamVersion state), w).

Definition readStream {EventType ReadOptions : Type}
  (streamName : jstring) (options : option ReadOptions)
  (w : World E) : result (ReadStreamResult EventType) * World E :=
  let events : list EventType := [] in
  (Ok (Build_ReadStreamResult (N.of_nat (List.length events)) events), w).

(** The promise [decider.transact] returns is not awaited: the
    transaction runs, and its outcome reaches neither the result nor the
    caller. *)
Definition appendToStream (streamName : jstring) (events : list E)
  (w : World E) : result AppendToStreamResult * World E :=
  match AccountId_parse streamName with
  | Throw e => (Throw e, w)
  | Ok accountId =>
      match StreamId_create streamName with
      | Throw e => (Throw e, w)
      | Ok streamId =>
          let decider := forStream mdynamoStoreCategory streamId in
          let '(_, w') := transact decider (fun _ => Ok events) w in
          (Ok {| nextExpectedStreamVersion := N.of_nat (List.length events) |}, w')
      end
  end.

End EventStore.

Arguments evolve {State EventType ReadOptions}.
Arguments getInitialState {State EventType ReadOptions}.
Arguments currentStreamVersion {State}.
Arguments state {State}.
Arguments Build_AggregateStreamResult {State}.
Arguments Build_ReadStreamResult {EventType}.
Arguments events {EventType}.


(** An identifier function that accepts a name as it is: what
    [AccountId.parse] and [StreamId.create] do with a well-formed
    identifier. *)
Definition accept (name : jstring) : result jstring := Ok name.

(** A store in which one stream holds the given events and every other
    stream is empty, with no call made yet. *)
Definition single_stream {E : Type} (stream : jstring) (events : list E) : World E :=
  mkWorld (fun s => if str_eqb s stream then events else []) [].

(** The stream and the batch of the source's own run, and the commands of
    the service's own run. *)
Definition sample_stream : jstring := js "0f8fad5b-d9cb-469f-a165-70867728950e".

Definition sample_batch : list Events.Event :=
  [Events.Opened Open (js "John Do e") (num_of_Z 0);
   Events.Deposited (num_of_Z 100);
   Events.Deposited (num_of_Z 140);
   Events.Deposited (num_of_Z 90)].

Definition sample_run (w : World Events.Event) : World Events.Event :=
  let service := Service.create sample_stream in
  let w1 := snd (Service.open service sample_stream (js "Alice") w) in
  let w2 := snd (Service.deposit service sample_stream (num_of_Z 100) w1) in
  let w3 := snd (Service.deposit service sample_stream (num_of_Z 100) w2) in
  let w4 := snd (Service.deposit service sample_stream (num_of_Z 200) w3) in
  snd (Service.withdraw service sample_stream (num_of_Z 50) w4).

(** The amount an event carries. *)
Definition event_amount (e : Events.Event) : number :=
  match e with
  | Events.Opened _ _ amount => amount
  | Events.Deposited amount => amount
  | Events.Withdrawn amount => amount
  end.

(** [JSON.parse(JSON.stringify(x))] is [x]. *)
Definition reads_back (x : number) : Prop :=
  JSON.parse (JSON.stringify (JNumber x)) = Ok (JNumber x).

(** A character that ends a member of an object. *)
Definition delimiter (d : char16) : bool := N.eqb d (ch ",") || N.eqb d (ch "}").

(** The text [V] is read as the value [v] wherever it is followed by a
    delimiter. *)
Definition reads (V : jstring) (v : jsval) : Prop :=
  forall fuel d tail,
    delimiter d = true ->
    exists r, JSON.read_value (S fuel) (V ++ d :: tail) = Some (v, r)
              /\ JSON.skip_ws r = d :: tail.

(** [shift m n] is [m * 2^n]. *)
Definition shift (m : positive) (n : nat) : positive := Nat.iter n xO m.

(* ------------------------------------------------------------------ *)
(** ** The fold on run-time values *)

(** [evolve] and [fold] as they run: on whatever values the state and the
    event hold, with the conversions the operators [+] and [-] make. *)
Module RunTime.
Local Open Scope N_scope.

(** StrWhiteSpaceChar: the white space and line terminator characters
    that may surround the text of a number. *)
Definition is_white_space (c : char16) : bool :=
  (c =? 9) || (c =? 10) || (c =? 11) || (c =? 12) || (c =? 13) || (c =? 32)
  || (c =? 160) || (c =? 5760) || ((8192 <=? c) && (c <=? 8202))
  || (c =? 8232) || (c =? 8233) || (c =? 8239) || (c =? 8287)
  || (c =? 12288) || (c =? 65279).

Fixpoint trim_start (s : jstring) : jstring :=
  match s with
  | c :: rest => if is_white_space c then trim_start rest else s
  | [] => []
  end.

Definition trim (s : jstring) : jstring :=
  rev (trim_start (rev (trim_start s))).

(** The value of digits in radix 2, 8 or 16. *)
Fixpoint radix_value (radix acc : N) (ds : jstring) : option N :=
  match ds with
  | [] => Some acc
  | c :: rest =>
      match JSON.hex_value c with
      | Some d => if d <? radix then radix_value radix (acc * radix + d) rest
                  else None
      | None => None
      end
  end.

(** NonDecimalIntegerLiteral: [0x], [0o] or [0b] and at least one digit. *)
Definition non_decimal (s : jstring) : option number :=
  match s with
  | z :: p :: ((_ :: _) as ds) =>
      let radix :=
        if (p =? ch "x") || (p =? ch "X") then Some 16
        else if (p =? ch "o") || (p =? ch "O") then Some 8
        else if (p =? ch "b") || (p =? ch "B") then Some 2
        else None in
      match radix with
      | Some r =>
          if z =? ch "0" then
            match radix_value r 0 ds with
            | Some n => Some (num_of_Z (Z.of_N n))
            | None => None
            end
          else None
      | None => None
      end
  | _ => None
  end.

(** StrUnsignedDecimalLiteral: [Infinity], or digits with an optional
    point and an optional exponent part, with a digit before or after the
    point. *)
Definition unsigned_decimal (negative : bool) (s : jstring) : option number :=
  if str_eqb s (js "Infinity") then Some (S754_infinity negative)
  else
    let '(int, tail) := JSON.span JSON.is_digit s in
    let '(frac, tail') :=
      match tail with
      | c :: rest => if c =? ch "." then JSON.span JSON.is_digit rest else ([], tail)
      | [] => ([], tail)
      end in
    match int ++ frac, JSON.read_exponent tail' with
    | _ :: _, Some e =>
        Some (decimal_to_number negative
                (JSON.digits_value (int ++ frac))
                (e - Z.of_nat (List.length frac))%Z)
    | _, _ => None
    end.

(** StringToNumber: the empty text is 0, a text that is not a numeric
    literal is NaN, and a decimal literal is its value rounded to the
    nearest number. *)
Definition StringToNumber (s : jstring) : number :=
  match trim s with
  | [] => num_of_Z 0
  | c :: rest =>
      let literal :=
        if c =? ch "+" then unsigned_decimal false rest
        else if c =? ch "-" then unsigned_decimal true rest
        else
          match non_decimal (c :: rest) with
          | Some x => Some x
          | None => unsigned_decimal false (c :: rest)
          end in
      match literal with
      | Some x => x
      | None => NaN
      end
  end.

(** ToPrimitive: an array or a plain object is converted by its
    [toString], [valueOf] returning the object itself; the conversion
    throws where ToString does. *)
Definition ToPrimitive (v : jsval) : result jsval :=
  match v with
  | JArray _ | JObject _ => let* text := JSON.to_string v in Ok (JString text)
  | _ => Ok v
  end.

Definition ToNumber (v : jsval) : result number :=
  let* primitive := ToPrimitive v in
  match primitive with
  | JUndefined => Ok NaN
  | JNull => Ok (num_of_Z 0)
  | JBool true => Ok (num_of_Z 1)
  | JBool false => Ok (num_of_Z 0)
  | JNumber x => Ok x
  | JString s => Ok (StringToNumber s)
  | JArray _ | JObject _ => Throw TypeError
  end.

(** [a + b]: both operands are made primitive, the left one first; the
    result is the concatenation when either is then a string, the sum of
    numbers otherwise. *)
Definition add (a b : jsval) : result jsval :=
  let* pa := ToPrimitive a in
  let* pb := ToPrimitive b in
  match pa, pb with
  | JString s, _ => let* t := JSON.to_string pb in Ok (JString (s ++ t))
  | _, JString t => let* s := JSON.to_string pa in Ok (JString (s ++ t))
  | _, _ =>
      let* x := ToNumber pa in
      let* y := ToNumber pb in
      Ok (JNumber (num_add x y))
  end.

(** [a - b]. *)
Definition sub (a b : jsval) : result jsval :=
  let* x := ToNumber a in
  let* y := ToNumber b in
  Ok (JNumber (num_sub x y)).

(** The own enumerable properties a spread copies, in property order:
    those of an object, the elements of an array, the characters of a
    string; nothing for the other values. *)
Fixpoint indexed {A : Type} (f : A -> jsval) (i : nat) (l : list A)
  : list (jstring * jsval) :=
  match l with
  | [] => []
  | x :: rest => (digits (N.of_nat i), f x) :: indexed f (S i) rest
  end.

Definition own_properties (v : jsval) : list (jstring * jsval) :=
  match v with
  | JObject props => props
  | JArray items => indexed (fun x => x) 0 items
  | JString s => indexed (fun c => JString [c]) 0 s
  | _ => []
  end.

(** [{...v}]. *)
Definition spread (v : jsval) : list (jstring * jsval) :=
  fold_left (fun acc kv => JSON.set_prop acc (fst kv) (snd kv)) (own_properties v) [].

(** [evolve] of the first document, whose [switch] has a [default] that
    returns the state. *)
Definition evolve (state event : jsval) : result jsval :=
  let* event_type := get event (js "type") in
  if is_string event_type (js "Opened") then
    let* data := get event (js "data") in
    let* data_name := get data (js "name") in
    Ok (JObject (JSON.set_prop
                   (JSON.set_prop (spread state) (js "status") (JString (js "Open")))
                   (js "name") data_name))
  else if is_string event_type (js "Deposited") then
    let* state_amount := get state (js "amount") in
    let* data := get event (js "data") in
    let* data_amount := get data (js "amount") in
    let* amount := add state_amount data_amount in
    Ok (JObject (JSON.set_prop (spread state) (js "amount") amount))
  else if is_string event_type (js "Withdrawn") then
    let* state_amount := get state (js "amount") in
    let* data := get event (js "data") in
    let* data_amount := get data (js "amount") in
    let* amount := sub state_amount data_amount in
    Ok (JObject (JSON.set_prop (spread state) (js "amount") amount))
  else Ok state.

(** [events.reduce(f, state)]. *)
Fixpoint reduce (f : jsval -> jsval -> result jsval) (events : list jsval)
  (state : jsval) : result jsval :=
  match events with
  | [] => Ok state
  | event :: rest => let* next := f state event in reduce f rest next
  end.

Definition fold (state : jsval) (events : list jsval) : result jsval :=
  reduce evolve events state.

Module Fold.

(** [Fold.evolve], whose [switch] has no [default]: with another type the
    function ends without a [return], and its value is [undefined]. *)
Definition evolve (state event : jsval) : result jsval :=
  let* event_type := get event (js "type") in
  if is_string event_type (js "Opened") then
    let* data := get event (js "data") in
    let* data_name := get data (js "name") in
    Ok (JObject (JSON.set_prop
                   (JSON.set_prop (spread state) (js "status") (JString (js "Open")))
                   (js "name") data_name))
  else if is_string event_type (js "Deposited") then
    let* state_amount := get state (js "amount") in
    let* data := get event (js "data") in
    let* data_amount := get data (js "amount") in
    let* amount := add state_amount data_amount in
    Ok (JObject (JSON.set_prop (spread state) (js "amount") amount))
  else if is_string event_type (js "Withdrawn") then
    let* state_amount := get state (js "amount") in
    let* data := get event (js "data") in
    let* data_amount := get data (js "amount") in
    let* amount := sub state_amount data_amount in
    Ok (JObject (JSON.set_prop (spread state) (js "amount") amount))
  else Ok JUndefined.

Definition fold (state : jsval) (events : list jsval) : result jsval :=
  reduce evolve events state.

End Fold.

End RunTime.

(** The run-time value of a typed state. *)
Definition state_value (s : Fold.State) : jsval :=
  JObject [(js "status", JString (Codec.status_name (Fold.status s)));
           (js "name", JString (Fold.name s));
           (js "amount", JNumber (Fold.amount s))].


(** The event as it is applied when it is read back from the store: an
    amount that is not a finite, non-zero number has become 0. *)
Definition replayed (e : Events.Event) : Events.Event :=
  let amount :=
    match event_amount e with
    | S754_finite _ _ _ as x => x
    | _ => num_of_Z 0
    end in
  match e with
  | Events.Opened status name _ => Events.Opened status name amount
  | Events.Deposited _ => Events.Deposited amount
  | Events.Withdrawn _ => Events.Withdrawn amount
  end.

(** The run-time value of the event [e] with [amount] in the place of its
    amount. *)
Definition with_amount (e : Events.Event) (amount : jsval) : jsval :=
  match e with
  | Events.Opened status name _ =>
      JObject [(js "type", JString (js "Opened"));
               (js "data", JObject [(js "status", JString (Codec.status_name status));
                                    (js "name", JString name);
                                    (js "amount", amount)])]
  | Events.Deposited _ =>
      JObject [(js "type", JString (js "Deposited"));
               (js "data", JObject [(js "amount", amount)])]
  | Events.Withdrawn _ =>
      JObject [(js "type", JString (js "Withdrawn"));
               (js "data", JObject [(js "amount", amount)])]
  end.

(** What comes back of a number written into a payload: [null] for NaN and
    the infinities, 0 for both zeros, the number itself otherwise. *)
Definition stored_amount (x : number) : jsval :=
  match x with
  | S754_nan | S754_infinity _ => JNull
  | S754_zero _ => JNumber (num_of_Z 0)
  | S754_finite _ _ _ => JNumber x
  end.

(** Whether an event is an Opened event, and the name the last Opened
    event of a list gives, [name] when there is none. *)
Definition is_opened (e : Events.Event) : bool :=
  match e with
  | Events.Opened _ _ _ => true
  | _ => false
  end.

Fixpoint last_opened_name (events : list Events.Event) (name : jstring) : jstring :=
  match events with
  | [] => name
  | Events.Opened _ event_name _ :: rest => last_opened_name rest event_name
  | _ :: rest => last_opened_name rest name
  end.

(** Whether a type is one the [switch] of [evolve] has a case for. *)
Definition has_case (type : jsval) : bool :=
  is_string type (js "Opened") || is_string type (js "Deposited")
  || is_string type (js "Withdrawn").

(** A number the codec gives back as it is: a finite binary64 number
    other than -0. *)
Definition lossless (x : number) : Prop :=
  is_number x = true /\ is_finite x = true /\ x <> negative_zero.

(** Modelled from the spec: what a stream gives back of the events written
    to it.  The categories are created with the codec
    ([Codec.compress(Events.codec)], whose compression of the payload text
    is undone on reading): the library, which is not among the sources,
    encodes an event when it appends it and decodes it when it loads the
    stream, and leaves an event that decodes to [undefined] out of the
    fold (spec 4.1 and 7). *)
Definition read_back (event : jsval) : result jsval :=
  let* wire := Codec.encode event in Codec.decode wire.

Fixpoint read_back_all (events : list jsval) : result (list jsval) :=
  match events with
  | [] => Ok []
  | event :: rest =>
      let* decoded := read_back event in
      let* others := read_back_all rest in
      Ok (match decoded with
          | JUndefined => others
          | _ => decoded :: others
          end)
  end.

(** An identifier function that rejects every name. *)
Definition reject (name : jstring) : result jstring :=
  Throw (Error (js "invalid identifier")).

(* ------------------------------------------------------------------ *)
(** * Properties *)

Import Events.

(** ** Fold *)

Lemma fold_app (s : Fold.State) (xs ys : list Event) :
  Fold.fold s (xs ++ ys) = Fold.fold (Fold.fold s xs) ys.
Proof. unfold Fold.fold. apply fold_left_app. Qed.

(** C3. Folding a whole event sequence from [initial] gives the same state
    as folding its first [k] events and then folding the remaining events
    from the state reached, for every split point [k]. *)
Theorem fold_split (es : list Event) (k : nat) :
  Fold.fold Fold.initial es
  = Fold.fold (Fold.fold Fold.initial (firstn k es)) (skipn k es).
Proof.
  rewrite <- fold_app. now rewrite firstn_skipn.
Qed.

(** ** Strings and numbers *)

Lemma str_eqb_refl (a : jstring) : str_eqb a a = true.
Proof.
  induction a as [|x a IH]; simpl; [reflexivity|].
  now rewrite N.eqb_refl, IH.
Qed.

Lemma str_eqb_eq (a b : jstring) : str_eqb a b = true <-> a = b.
Proof.
  split; [|intros ->; apply str_eqb_refl].
  revert b; induction a as [|x a IH]; intros [|y b]; simpl; try discriminate; auto.
  intros H. apply andb_prop in H as [Hx Hab].
  apply N.eqb_eq in Hx. apply IH in Hab. now subst.
Qed.

Lemma str_eqb_neq (a b : jstring) : a <> b -> str_eqb a b = false.
Proof.
  intros H. destruct (str_eqb a b) eqn:E; [|reflexivity].
  now apply str_eqb_eq in E.
Qed.

(** Two numbers that are [==] are both zero, or the same infinity, or the
    same finite number. *)
Lemma num_eq_cases (a b : number) :
  num_eq a b = true ->
  (exists s t, a = S754_zero s /\ b = S754_zero t)
  \/ (exists s, a = S754_infinity s /\ b = S754_infinity s)
  \/ (exists s m e, a = S754_finite s m e /\ b = S754_finite s m e).
Proof.
  unfold num_eq, SFeqb.
  destruct a as [s| s| |s m e], b as [t| t| |t n f]; simpl;
    try destruct s; try destruct t; try discriminate; intros H;
    try (left; eexists _, _; split; reflexivity);
    try (right; left; eexists; split; reflexivity);
    right; right;
    destruct (Z.compare e f) eqn:Ee; try discriminate;
    apply Z.compare_eq in Ee; subst f;
    destruct (Pos.compare_cont Eq m n) eqn:Em; try discriminate;
    apply Pos.compare_eq in Em; subst n; eexists _, _, _; split; reflexivity.
Qed.

Lemma num_eq_not_lt (a b : number) : num_eq a b = true -> num_lt b a = false.
Proof.
  intros H. apply num_eq_cases in H.
  destruct H as [(s & t & -> & ->)|[(s & -> & ->)|(s & m & e & -> & ->)]];
    unfold num_lt, SFltb; simpl.
  - reflexivity.
  - now destruct s.
  - rewrite Z.compare_refl. fold (Pos.compare m m). rewrite Pos.compare_refl.
    now destruct s.
Qed.

(** A finite number minus itself is zero. *)
Lemma num_sub_diag (a b : number) :
  num_eq a b = true -> is_finite a = true ->
  num_eq (num_sub b a) (num_of_Z 0) = true.
Proof.
  intros H Hfin. apply num_eq_cases in H.
  destruct H as [(s & t & -> & ->)|[(s & -> & ->)|(s & m & e & -> & ->)]].
  - now destruct s, t.
  - discriminate.
  - unfold num_sub, SFsub. rewrite Z.sub_diag. reflexivity.
Qed.

(** ** Decisions *)

Lemma not_open_throws (s : Fold.State) :
  Fold.status s <> Open ->
  negb (Decide.status_eqb (Fold.status s) Open) = true.
Proof. destruct (Fold.status s); simpl; congruence. Qed.

(** C6. Against a state whose status is NonExistent or Closed, a deposit
    and a withdrawal of any amount both throw the error "Account is not
    open" and so return no events. *)
Theorem closed_account_rejects (s : Fold.State) (amount : number) :
  Fold.status s = NonExistent \/ Fold.status s = Closed ->
  Decide.deposit amount s = Throw (Error (js "Account is not open"))
  /\ Decide.withdraw amount s = Throw (Error (js "Account is not open")).
Proof.
  intros H. unfold Decide.deposit, Decide.withdraw.
  rewrite not_open_throws; [split; reflexivity|].
  destruct H as [H|H]; rewrite H; discriminate.
Qed.

Lemma closed_account_rejects_witness :
  Fold.status Fold.initial = NonExistent
  /\ Decide.deposit (num_of_Z 100) Fold.initial = Throw (Error (js "Account is not open"))
  /\ Decide.withdraw (num_of_Z 100) Fold.initial = Throw (Error (js "Account is not open")).
Proof.
  split; [reflexivity|].
  apply (closed_account_rejects Fold.initial (num_of_Z 100)).
  left; reflexivity.
Defined.

(** C5 fails as stated: with a balance of [Infinity], withdrawing
    [Infinity] (equal to the balance) succeeds, and the Withdrawn event
    leaves the amount [Infinity - Infinity], which is NaN and not [== 0]. *)
Lemma withdraw_infinite_balance :
  let s := Fold.mkState Open (js "Alice") Infinity in
  Fold.status s = Open
  /\ num_eq Infinity (Fold.amount s) = true
  /\ Decide.withdraw Infinity s = Ok [Withdrawn Infinity]
  /\ Fold.amount (Fold.evolve s (Withdrawn Infinity)) = NaN
  /\ num_eq (Fold.amount (Fold.evolve s (Withdrawn Infinity))) (num_of_Z 0) = false.
Proof. repeat split. Qed.

(** C5, amended. Against an Open state, a withdrawal of more than the
    balance throws "Insufficient funds" and returns no events; a withdrawal
    equal to the balance returns one Withdrawn event, and when the amount
    is finite, applying that event leaves an amount [== 0]. *)
Theorem withdraw_funds (s : Fold.State) (amount : number) :
  Fold.status s = Open ->
  (num_gt amount (Fold.amount s) = true ->
   Decide.withdraw amount s = Throw (Error (js "Insufficient funds")))
  /\ (num_eq amount (Fold.amount s) = true ->
      Decide.withdraw amount s = Ok [Withdrawn amount]
      /\ (is_finite amount = true ->
          num_eq (Fold.amount (Fold.evolve s (Withdrawn amount))) (num_of_Z 0) = true)).
Proof.
  intros Hopen. unfold Decide.withdraw. rewrite Hopen. simpl. split.
  - unfold num_gt, num_lt. now intros ->.
  - intros Heq. rewrite (num_eq_not_lt _ _ Heq). split; [reflexivity|].
    intros Hfin. now apply num_sub_diag.
Qed.

Lemma withdraw_funds_witness :
  let s := Fold.mkState Open (js "Alice") (num_of_Z 350) in
  Decide.withdraw (num_of_Z 351) s = Throw (Error (js "Insufficient funds"))
  /\ Decide.withdraw (num_of_Z 350) s = Ok [Withdrawn (num_of_Z 350)]
  /\ num_eq (Fold.amount (Fold.evolve s (Withdrawn (num_of_Z 350)))) (num_of_Z 0) = true.
Proof.
  intros s.
  destruct (withdraw_funds s (num_of_Z 351) eq_refl) as [Hmore _].
  destruct (withdraw_funds s (num_of_Z 350) eq_refl) as [_ Hall].
  split; [apply Hmore; reflexivity|].
  destruct (Hall eq_refl) as [Hok Hzero].
  split; [exact Hok|apply Hzero; reflexivity].
Defined.

(** C9. Applying an Opened event sets the status to Open and the name to
    the payload's name and keeps the amount of the state; the payload's
    status and amount have no effect.  So the event [open] decides, whose
    payload amount is 0, leaves the balance of an account as it was. *)
Theorem evolve_opened_keeps_amount (s : Fold.State) (status : AccountStatus)
  (name : jstring) (amount : number) :
  Fold.evolve s (Opened status name amount)
  = Fold.mkState Open name (Fold.amount s)
  /\ (forall status' amount',
        Fold.evolve s (Opened status' name amount')
        = Fold.evolve s (Opened status name amount))
  /\ (forall accountId,
        exists events,
          Decide.open accountId name s = Ok events
          /\ Fold.fold s events = Fold.mkState Open name (Fold.amount s)).
Proof.
  repeat split. intros accountId. eexists; split; reflexivity.
Qed.

(** ** The codec: payloads that are missing, empty or unreadable *)

(** C8. For an event object without a payload (no [data] property, or one
    that is [undefined]), [encode] returns the record [{ type, data }] in
    which the [data] property is present and holds [undefined]: the field
    is not left out, and its value is not the empty string. *)
Theorem encode_without_payload (props : list (jstring * jsval)) :
  lookup (js "data") props = None \/ lookup (js "data") props = Some JUndefined ->
  exists type,
    get (JObject props) (js "type") = Ok type
    /\ Codec.encode (JObject props)
       = Ok (JObject [(js "type", type); (js "data", JUndefined)])
    /\ forall wire, Codec.encode (JObject props) = Ok wire ->
         has_property (js "data") wire = Ok true
         /\ get wire (js "data") = Ok JUndefined
         /\ get wire (js "data") <> Ok (JString (js "")).
Proof.
  intros H.
  assert (Henc : exists type,
             get (JObject props) (js "type") = Ok type
             /\ Codec.encode (JObject props)
                = Ok (JObject [(js "type", type); (js "data", JUndefined)])).
  { unfold Codec.encode, get, has_property.
    destruct H as [H|H]; rewrite H; simpl;
      destruct (lookup (js "type") props); eexists; split; reflexivity. }
  destruct Henc as (type & Htype & Henc). exists type.
  split; [exact Htype|]. split; [exact Henc|].
  intros wire Hwire. rewrite Henc in Hwire. injection Hwire as <-.
  repeat split. discriminate.
Qed.

Lemma encode_without_payload_witness :
  exists type,
    get (JObject [(js "type", JString (js "Opened"))]) (js "type") = Ok type
    /\ Codec.encode (JObject [(js "type", JString (js "Opened"))])
       = Ok (JObject [(js "type", type); (js "data", JUndefined)])
    /\ forall wire,
         Codec.encode (JObject [(js "type", JString (js "Opened"))]) = Ok wire ->
         has_property (js "data") wire = Ok true
         /\ get wire (js "data") = Ok JUndefined
         /\ get wire (js "data") <> Ok (JString (js "")).
Proof.
  apply (encode_without_payload [(js "type", JString (js "Opened"))]).
  left; reflexivity.
Defined.

(** [decode] sees of an event only what [event.data] and [event.type]
    read. *)
Lemma decode_reads (event data type : jsval) :
  get event (js "data") = Ok data ->
  get event (js "type") = Ok type ->
  Codec.decode event
  = Codec.decode (JObject [(js "type", type); (js "data", data)]).
Proof. intros Hdata Htype. unfold Codec.decode. now rewrite Hdata, Htype. Qed.

(** C10. [decode] reads an event whose [data] is absent, is [undefined] or
    is the empty string exactly as it reads one whose [data] is the text of
    the empty object: the payload is parsed as the empty object before the
    type is looked at.  For a recognized type the result is an event whose
    payload fields are all [undefined], not an error. *)
Theorem decode_empty_payload (event type : jsval) :
  get event (js "type") = Ok type ->
  get event (js "data") = Ok JUndefined
  \/ get event (js "data") = Ok (JString (js "")) ->
  Codec.decode event
  = Codec.decode (JObject [(js "type", type); (js "data", JString (js "{}"))])
  /\ (type = JString (js "Opened") ->
      Codec.decode event
      = Ok (JObject [(js "type", JString (js "Opened"));
                     (js "data", JObject [(js "status", JUndefined);
                                          (js "name", JUndefined);
                                          (js "amount", JUndefined)])]))
  /\ (type = JString (js "Deposited") ->
      Codec.decode event
      = Ok (JObject [(js "type", JString (js "Deposited"));
                     (js "data", JObject [(js "amount", JUndefined)])]))
  /\ (type = JString (js "Withdrawn") ->
      Codec.decode event
      = Ok (JObject [(js "type", JString (js "Withdrawn"));
                     (js "data", JObject [(js "amount", JUndefined)])])).
Proof.
  intros Htype Hdata.
  assert (Hsame : Codec.decode event
                  = Codec.decode (JObject [(js "type", type);
                                           (js "data", JString (js "{}"))])).
  { destruct Hdata as [Hdata|Hdata];
      rewrite (decode_reads _ _ _ Hdata Htype); reflexivity. }
  rewrite Hsame. repeat split; intros ->; reflexivity.
Qed.

Lemma decode_empty_payload_witness :
  Codec.decode (JObject [(js "type", JString (js "Opened"))])
  = Ok (JObject [(js "type", JString (js "Opened"));
                 (js "data", JObject [(js "status", JUndefined);
                                      (js "name", JUndefined);
                                      (js "amount", JUndefined)])])
  /\ Codec.decode (Codec.transport (js "Opened") (Some (js "")))
     = Codec.decode (Codec.transport (js "Opened") (Some (js "{}"))).
Proof.
  split.
  - refine (proj1 (proj2 (decode_empty_payload
                            (JObject [(js "type", JString (js "Opened"))])
                            (JString (js "Opened")) eq_refl _)) eq_refl).
    left; reflexivity.
  - refine (proj1 (decode_empty_payload
                     (Codec.transport (js "Opened") (Some (js "")))
                     (JString (js "Opened")) eq_refl _)).
    right; reflexivity.
Defined.

Lemma is_string_unrecognized (type literal : jstring) :
  type <> literal -> is_string (JString type) literal = false.
Proof. intros H. simpl. now apply str_eqb_neq. Qed.

(** With an unrecognized type, [decode] is the parse of the payload and
    nothing else. *)
Lemma decode_unrecognized (event : jsval) (type : jstring) (data : jsval) :
  get event (js "type") = Ok (JString type) ->
  get event (js "data") = Ok data ->
  ~ In type [js "Opened"; js "Deposited"; js "Withdrawn"] ->
  Codec.decode event
  = let* _ := JSON.parse (or_else data (JString (js "{}"))) in Ok JUndefined.
Proof.
  intros Htype Hdata Hnot. unfold Codec.decode. rewrite Hdata, Htype.
  cbn [bind].
  destruct (JSON.parse (or_else data (JString (js "{}")))) as [parsed|e]; [|reflexivity].
  cbn [bind].
  rewrite !is_string_unrecognized; [reflexivity| | |];
    intros ->; apply Hnot; simpl; auto.
Qed.

(** C7 fails as stated: a transport event with the unrecognized type
    "Closed" and a payload that is not JSON text makes [decode] throw a
    SyntaxError. *)
Lemma decode_unreadable_payload :
  ~ In (js "Closed") [js "Opened"; js "Deposited"; js "Withdrawn"]
  /\ Codec.decode (Codec.transport (js "Closed") (Some (js "oops")))
     = Throw SyntaxError.
Proof.
  split; [|reflexivity].
  simpl; intros [H|[H|[H|[]]]]; discriminate H.
Qed.

(** C7, amended. For an event whose type is not Opened, Deposited or
    Withdrawn, [decode] returns [undefined] when the [data] is absent,
    [undefined], empty or a text that [JSON.parse] accepts; when the [data]
    is a non-empty text that [JSON.parse] rejects, [decode] throws what
    [JSON.parse] throws. *)
Theorem decode_unrecognized_type (event : jsval) (type : jstring) (data : jsval) :
  get event (js "type") = Ok (JString type) ->
  get event (js "data") = Ok data ->
  ~ In type [js "Opened"; js "Deposited"; js "Withdrawn"] ->
  (data = JUndefined \/ data = JString (js "")
   \/ (exists text parsed,
         data = JString text /\ JSON.parse (JString text) = Ok parsed) ->
   Codec.decode event = Ok JUndefined)
  /\ (forall text e,
        data = JString text -> text <> js "" -> JSON.parse (JString text) = Throw e ->
        Codec.decode event = Throw e).
Proof.
  intros Htype Hdata Hnot.
  rewrite (decode_unrecognized _ _ _ Htype Hdata Hnot). split.
  - intros [->|[->|(text & parsed & -> & Hparse)]]; try reflexivity.
    destruct text as [|c text]; [reflexivity|].
    change (or_else (JString (c :: text)) (JString (js "{}"))) with (JString (c :: text)).
    now rewrite Hparse.
  - intros text e -> Hne Hparse.
    destruct text as [|c text]; [now elim Hne|].
    change (or_else (JString (c :: text)) (JString (js "{}"))) with (JString (c :: text)).
    now rewrite Hparse.
Qed.

Lemma decode_unrecognized_type_witness :
  Codec.decode (Codec.transport (js "Closed") (Some (js "[1, 2]")))
  = Ok JUndefined.
Proof.
  refine (proj1 (decode_unrecognized_type
                   (Codec.transport (js "Closed") (Some (js "[1, 2]")))
                   (js "Closed") (JString (js "[1, 2]")) eq_refl eq_refl _) _).
  - simpl; intros [H|[H|[H|[]]]]; discriminate H.
  - right; right. eexists _, _. split; reflexivity.
Defined.

(** ** The Decider and the adapter *)

Section AdapterFacts.

Context {E S : Type}.
Variables (AccountId_parse StreamId_create : jstring -> result jstring).
Variable category : Category E S.

(** A transaction whose decision is a fixed batch: the calls it leaves and
    the stream it leaves. *)
Lemma transact_batch (d : Decider E S) (events : list E) (w : World E) :
  exists outcome w',
    transact d (fun _ => Ok events) w = (outcome, w')
    /\ calls w'
       = calls w ++ Transaction (decider_stream d) (Ok events)
                    :: match events with
                       | [] => []
                       | _ :: _ => [Append (decider_stream d)
                                      (version_of w (decider_stream d)) events]
                       end
    /\ events_of w' (decider_stream d) = events_of w (decider_stream d) ++ events.
Proof.
  unfold transact, load. destruct events as [|e events].
  - eexists _, _. split; [reflexivity|]. split; [reflexivity|].
    simpl. now rewrite app_nil_r.
  - eexists _, _. split; [reflexivity|]. split; [reflexivity|].
    unfold events_of; simpl. unfold append_events. now rewrite str_eqb_refl.
Qed.

(** When the identifier functions accept the stream name, [appendToStream]
    makes one Decider transaction, whose decision is the whole batch, and
    at most one append, of the whole batch; it returns the number of
    events of the batch, and the stream ends with the batch added to what
    it held. *)
Lemma appendToStream_accepted (streamName accountId streamId : jstring)
  (events : list E) (w : World E) :
  AccountId_parse streamName = Ok accountId ->
  StreamId_create streamName = Ok streamId ->
  exists w',
    appendToStream AccountId_parse StreamId_create category streamName events w
    = (Ok {| nextExpectedStreamVersion := N.of_nat (List.length events) |}, w')
    /\ calls w'
       = calls w ++ Transaction streamId (Ok events)
                    :: match events with
                       | [] => []
                       | _ :: _ => [Append streamId (version_of w streamId) events]
                       end
    /\ events_of w' streamId = events_of w streamId ++ events
    /\ version_of w' streamId = (version_of w streamId + List.length events)%nat.
Proof.
  intros Hparse Hcreate. unfold appendToStream. rewrite Hparse, Hcreate.
  destruct (transact_batch (forStream category streamId) events w)
    as (outcome & w' & Htx & Hcalls & Hevents).
  rewrite Htx. exists w'. split; [reflexivity|]. split; [exact Hcalls|].
  split; [exact Hevents|].
  unfold version_of. simpl in Hevents. now rewrite Hevents, length_app.
Qed.

End AdapterFacts.

(** X1. When [AccountId.parse] and [StreamId.create] accept the stream
    name, [appendToStream] performs exactly one Decider transaction, whose
    decision result is the whole batch, and no append other than the one
    of the whole batch. *)
Theorem appendToStream_one_transaction {E S : Type}
  (AccountId_parse StreamId_create : jstring -> result jstring)
  (category : Category E S)
  (streamName accountId streamId : jstring) (events : list E) (w : World E) :
  AccountId_parse streamName = Ok accountId ->
  StreamId_create streamName = Ok streamId ->
  exists outcome w',
    appendToStream AccountId_parse StreamId_create category streamName events w
    = (outcome, w')
    /\ calls w'
       = calls w ++ Transaction streamId (Ok events)
                    :: match events with
                       | [] => []
                       | _ :: _ => [Append streamId (version_of w streamId) events]
                       end.
Proof.
  intros Hparse Hcreate.
  destruct (appendToStream_accepted AccountId_parse StreamId_create category
              streamName accountId streamId events w Hparse Hcreate)
    as (w' & Hrun & Hcalls & _).
  eexists _, w'. split; [exact Hrun|exact Hcalls].
Qed.

Lemma appendToStream_one_transaction_witness :
  exists outcome w',
    appendToStream accept accept Service.category sample_stream sample_batch
      (single_stream sample_stream [])
    = (outcome, w')
    /\ calls w'
       = [Transaction sample_stream (Ok sample_batch);
          Append sample_stream 0 sample_batch].
Proof.
  exact (appendToStream_one_transaction accept accept Service.category
           sample_stream sample_stream sample_stream sample_batch
           (single_stream sample_stream []) eq_refl eq_refl).
Defined.

(** X2. The batch of four events of the source's run, appended to an empty
    stream in one call: the result reports version 4, the stream holds the
    four events, and one append was made. *)
Theorem appendToStream_batch_of_four :
  exists w',
    appendToStream accept accept Service.category sample_stream sample_batch
      (single_stream sample_stream [])
    = (Ok {| nextExpectedStreamVersion := 4 |}, w')
    /\ version_of w' sample_stream = 4%nat
    /\ events_of w' sample_stream = sample_batch
    /\ calls w' = [Transaction sample_stream (Ok sample_batch);
                   Append sample_stream 0 sample_batch].
Proof. eexists. repeat split. Qed.

(** C1, at a stream that already holds an event. Appending a batch of one
    event to a stream whose version is 1 makes one transaction with the
    whole batch, leaves the stream at version 2, and reports 1 as the next
    expected version: the number of events of the batch, not the version
    of the stream after the append. *)
Theorem appendToStream_reports_batch_size :
  let w := single_stream sample_stream [Opened Open (js "John Do e") (num_of_Z 0)] in
  exists w',
    appendToStream accept accept Service.category sample_stream
      [Deposited (num_of_Z 100)] w
    = (Ok {| nextExpectedStreamVersion := 1 |}, w')
    /\ calls w' = [Transaction sample_stream (Ok [Deposited (num_of_Z 100)]);
                   Append sample_stream 1 [Deposited (num_of_Z 100)]]
    /\ version_of w sample_stream = 1%nat
    /\ version_of w' sample_stream = 2%nat.
Proof. eexists. repeat split. Qed.

(** X3. The service's own run on an empty stream: open for Alice, deposits
    of 100, 100 and 200, a withdrawal of 50.  The balance read afterwards
    is Open, "Alice", 350, at version 5. *)
Theorem service_run_balance :
  let w := sample_run (single_stream sample_stream []) in
  Service.readBalance (Service.create sample_stream) sample_stream w
  = Fold.mkState Open (js "Alice") (num_of_Z 350)
  /\ version_of w sample_stream = 5%nat.
Proof. split; reflexivity. Qed.


(** ** JSON text: strings read back *)

Module JSONFacts.
Import JSON.
Local Open Scope N_scope.

Local Ltac Zify.zify_post_hook ::= Z.to_euclidean_division_equations.

Lemma hex_value_digit (d : N) : d < 16 -> hex_value (hex_digit d) = Some d.
Proof.
  intros Hd. unfold hex_value, hex_digit, is_digit.
  change (ch "0") with 48. change (ch "9") with 57. change (ch "a") with 97.
  change (ch "f") with 102. change (ch "A") with 65. change (ch "F") with 70.
  destruct (d <? 10) eqn:E.
  - apply N.ltb_lt in E.
    replace ((48 <=? 48 + d) && (48 + d <=? 57)) with true
      by (symmetry; apply andb_true_intro; split; apply N.leb_le; lia).
    f_equal; lia.
  - apply N.ltb_ge in E.
    replace ((48 <=? 97 + (d - 10)) && (97 + (d - 10) <=? 57)) with false
      by (symmetry; apply andb_false_intro2; apply N.leb_gt; lia).
    replace ((97 <=? 97 + (d - 10)) && (97 + (d - 10) <=? 102)) with true
      by (symmetry; apply andb_true_intro; split; apply N.leb_le; lia).
    f_equal; lia.
Qed.

Lemma hex4_escape (c : char16) :
  c < 65536 ->
  hex4 (hex_digit (c / 4096)) (hex_digit ((c / 256) mod 16))
       (hex_digit ((c / 16) mod 16)) (hex_digit (c mod 16)) = Some c.
Proof.
  intros Hc. unfold hex4.
  rewrite !hex_value_digit by lia.
  f_equal. lia.
Qed.

(** What [quote_unit] writes for a code unit is read as that code unit. *)
Lemma read_quote_unit (c : char16) (tail : jstring) :
  read_string (quote_unit c ++ tail) = cons_to c (read_string tail).
Proof.
  unfold quote_unit.
  destruct (c =? 8) eqn:E8; [apply N.eqb_eq in E8; subst; reflexivity|].
  destruct (c =? 9) eqn:E9; [apply N.eqb_eq in E9; subst; reflexivity|].
  destruct (c =? 10) eqn:E10; [apply N.eqb_eq in E10; subst; reflexivity|].
  destruct (c =? 12) eqn:E12; [apply N.eqb_eq in E12; subst; reflexivity|].
  destruct (c =? 13) eqn:E13; [apply N.eqb_eq in E13; subst; reflexivity|].
  destruct (c =? dquote) eqn:Eq; [apply N.eqb_eq in Eq; subst; reflexivity|].
  destruct (c =? ch "\") eqn:Eb; [apply N.eqb_eq in Eb; subst; reflexivity|].
  destruct ((c <? 32) || is_high_surrogate c || is_low_surrogate c) eqn:Eesc.
  - assert (Hc : c < 65536).
    { unfold is_high_surrogate, is_low_surrogate in Eesc.
      apply orb_prop in Eesc as [Eesc|Eesc];
        [apply orb_prop in Eesc as [Eesc|Eesc]|].
      - apply N.ltb_lt in Eesc; lia.
      - apply andb_prop in Eesc as [_ Eesc]. apply N.leb_le in Eesc; lia.
      - apply andb_prop in Eesc as [_ Eesc]. apply N.leb_le in Eesc; lia. }
    unfold unicode_escape.
    change (read_string
              ([ch "\"; ch "u"; hex_digit (c / 4096); hex_digit ((c / 256) mod 16);
                hex_digit ((c / 16) mod 16); hex_digit (c mod 16)] ++ tail))
      with (match hex4 (hex_digit (c / 4096)) (hex_digit ((c / 256) mod 16))
                       (hex_digit ((c / 16) mod 16)) (hex_digit (c mod 16)) with
            | Some u => cons_to u (read_string tail)
            | None => None
            end).
    now rewrite hex4_escape.
  - apply orb_false_elim in Eesc as [Eesc _].
    apply orb_false_elim in Eesc as [Elow _].
    change (ch "\") with 92 in Eb.
    simpl. now rewrite Eq, Eb, Elow.
Qed.

Lemma read_surrogate_pair (c d : char16) (tail : jstring) :
  is_high_surrogate c && is_low_surrogate d = true ->
  read_string (c :: d :: tail) = cons_to c (cons_to d (read_string tail)).
Proof.
  unfold is_high_surrogate, is_low_surrogate. intros H.
  apply andb_prop in H as [Hc Hd].
  apply andb_prop in Hc as [Hc _]. apply andb_prop in Hd as [Hd _].
  apply N.leb_le in Hc, Hd.
  assert (Ec : (c =? dquote) = false /\ (c =? 92) = false /\ (c <? 32) = false).
  { unfold dquote.
    repeat split; [apply N.eqb_neq| apply N.eqb_neq| apply N.ltb_ge]; lia. }
  assert (Ed : (d =? dquote) = false /\ (d =? 92) = false /\ (d <? 32) = false).
  { unfold dquote.
    repeat split; [apply N.eqb_neq| apply N.eqb_neq| apply N.ltb_ge]; lia. }
  destruct Ec as (Ec1 & Ec2 & Ec3), Ed as (Ed1 & Ed2 & Ed3).
  simpl. now rewrite Ec1, Ec2, Ec3, Ed1, Ed2, Ed3.
Qed.

Lemma read_quote_chars_bounded (n : nat) :
  forall (s tail : jstring),
    (List.length s <= n)%nat ->
    read_string (quote_chars s ++ dquote :: tail) = Some (s, tail).
Proof.
  induction n as [|n IH]; intros s tail Hlen.
  - destruct s; [reflexivity|simpl in Hlen; lia].
  - destruct s as [|c s]; [reflexivity|].
    destruct s as [|d s].
    + simpl quote_chars. rewrite read_quote_unit. reflexivity.
    + simpl in Hlen.
      change (quote_chars (c :: d :: s))
        with (if is_high_surrogate c && is_low_surrogate d
              then c :: d :: quote_chars s
              else quote_unit c ++ quote_chars (d :: s)).
      destruct (is_high_surrogate c && is_low_surrogate d) eqn:Epair.
      * change ((c :: d :: quote_chars s) ++ dquote :: tail)
          with (c :: d :: (quote_chars s ++ dquote :: tail)).
        rewrite (read_surrogate_pair _ _ _ Epair).
        rewrite IH by lia. reflexivity.
      * rewrite <- app_assoc, read_quote_unit.
        rewrite IH by (simpl; lia). reflexivity.
Qed.

(** A string written by [quote] is read back as it was. *)
Lemma read_quote_chars (s tail : jstring) :
  read_string (quote_chars s ++ dquote :: tail) = Some (s, tail).
Proof. apply (read_quote_chars_bounded (List.length s)). lia. Qed.

End JSONFacts.

(** ** JSON text: numbers and members read in context *)

Module JSONContext.
Import JSON JSONFacts.
Local Open Scope N_scope.

Lemma skip_ws_app (s u : jstring) (c : char16) (rest : jstring) :
  skip_ws s = c :: rest -> skip_ws (s ++ u) = c :: rest ++ u.
Proof.
  induction s as [|a s IH]; simpl; [discriminate|].
  destruct (is_ws a); [exact IH|].
  intros [= -> ->]. reflexivity.
Qed.

Lemma skip_ws_nil_app (s u : jstring) :
  skip_ws s = [] -> skip_ws (s ++ u) = skip_ws u.
Proof.
  induction s as [|a s IH]; simpl; [reflexivity|].
  destruct (is_ws a); [exact IH|discriminate].
Qed.

Lemma span_app_stop (p : char16 -> bool) (s a b u : jstring) (d : char16) :
  span p s = (a, b) -> p d = false -> span p (s ++ d :: u) = (a, b ++ d :: u).
Proof.
  intros Hspan Hd. revert a b Hspan.
  induction s as [|c s IH]; simpl; intros a b Hspan.
  - injection Hspan as <- <-. now rewrite Hd.
  - destruct (p c).
    + destruct (span p s) as [a' b'] eqn:E. injection Hspan as <- <-.
      now rewrite (IH a' b' eq_refl).
    + injection Hspan as <- <-. reflexivity.
Qed.

Lemma delimiter_cases (d : char16) :
  delimiter d = true -> d = ch "," \/ d = ch "}".
Proof.
  unfold delimiter. intros H. apply orb_prop in H as [H|H];
    apply N.eqb_eq in H; auto.
Qed.

Lemma read_members_object (fuel : nat) :
  forall acc s v r, read_members fuel acc s = Some (v, r) -> exists props, v = JObject props.
Proof.
  induction fuel as [|fuel IH]; intros acc s v r; simpl; [discriminate|].
  destruct (skip_ws s) as [|c rest]; [discriminate|].
  destruct (c =? dquote); [|discriminate].
  destruct (read_string rest) as [[k r1]|]; [|discriminate].
  destruct (skip_ws r1) as [|c2 r2]; [discriminate|].
  destruct (c2 =? 58); [|discriminate].
  destruct (read_value fuel r2) as [[v' r3]|]; [|discriminate].
  destruct (skip_ws r3) as [|c3 r4]; [discriminate|].
  destruct (c3 =? 44); [apply IH|].
  destruct (c3 =? 125); [|discriminate].
  intros [= <- _]. eauto.
Qed.

Lemma read_elements_array (fuel : nat) :
  forall acc s v r, read_elements fuel acc s = Some (v, r) -> exists items, v = JArray items.
Proof.
  induction fuel as [|fuel IH]; intros acc s v r; simpl; [discriminate|].
  destruct (read_value fuel s) as [[v' r1]|]; [|discriminate].
  destruct (skip_ws r1) as [|c r2]; [discriminate|].
  destruct (c =? 44); [apply IH|].
  destruct (c =? 93); [|discriminate].
  intros [= <- _]. eauto.
Qed.

(** A text that [JSON.parse] reads as a number is, after white space, one
    number token followed by white space only. *)
Lemma parse_number_token (T : jstring) (x : number) :
  JSON.parse (JString T) = Ok (JNumber x) ->
  exists c rest token r,
    skip_ws T = c :: rest
    /\ (c =? 123) = false /\ (c =? 91) = false /\ (c =? dquote) = false
    /\ (c =? 116) = false /\ (c =? 102) = false /\ (c =? 110) = false
    /\ span is_number_char (c :: rest) = (token, r)
    /\ read_number token = Some x
    /\ skip_ws r = [].
Proof.
  unfold JSON.parse. cbn [to_string bind].
  destruct (read_value (S (List.length T)) T) as [[v r]|] eqn:Hrv; [|discriminate].
  destruct (skip_ws r) eqn:Hr; [|discriminate].
  intros [= ->]. cbn [read_value] in Hrv.
  destruct (skip_ws T) as [|c rest]; [discriminate|].
  exists c, rest.
  change (ch "{") with 123 in Hrv. change (ch "[") with 91 in Hrv.
  change (ch "t") with 116 in Hrv. change (ch "f") with 102 in Hrv.
  change (ch "n") with 110 in Hrv.
  destruct (c =? 123).
  { destruct (skip_ws rest) as [|d rest']; [discriminate|].
    destruct (d =? ch "}"); [discriminate|].
    apply read_members_object in Hrv as [props Hrv]. discriminate. }
  destruct (c =? 91).
  { destruct (skip_ws rest) as [|d rest']; [discriminate|].
    destruct (d =? ch "]"); [discriminate|].
    apply read_elements_array in Hrv as [items Hrv]. discriminate. }
  destruct (c =? dquote).
  { destruct (read_string rest) as [[str r']|]; discriminate. }
  destruct (c =? 116).
  { destruct (starts_with (js "rue") rest); discriminate. }
  destruct (c =? 102).
  { destruct (starts_with (js "alse") rest); discriminate. }
  destruct (c =? 110).
  { destruct (starts_with (js "ull") rest); discriminate. }
  destruct (span is_number_char (c :: rest)) as [token r'] eqn:Hspan.
  destruct (read_number token) as [y|] eqn:Hnum; [|discriminate].
  injection Hrv as -> ->.
  exists token, r. repeat split; auto.
Qed.

(** A number that reads back on its own reads back inside an object. *)
Lemma reads_number (x : number) : reads_back x -> reads (number_text x) (JNumber x).
Proof.
  unfold reads_back. change (JSON.stringify (JNumber x)) with (JString (number_text x)).
  intros H. apply parse_number_token in H.
  destruct H as (c & rest & token & r & Hws & E1 & E2 & E3 & E4 & E5 & E6
                 & Hspan & Hnum & Hr).
  intros fuel d tail Hd.
  assert (Hstop : is_number_char d = false /\ is_ws d = false).
  { apply delimiter_cases in Hd as [->| ->]; split; reflexivity. }
  destruct Hstop as [Hstop Hnws].
  exists (r ++ d :: tail). split.
  - cbn [read_value]. rewrite (skip_ws_app _ _ _ _ Hws).
    change (ch "{") with 123. change (ch "[") with 91.
    change (ch "t") with 116. change (ch "f") with 102. change (ch "n") with 110.
    rewrite E1, E2, E3, E4, E5, E6.
    change (c :: rest ++ d :: tail) with ((c :: rest) ++ d :: tail).
    rewrite (span_app_stop _ _ _ _ _ _ Hspan Hstop). now rewrite Hnum.
  - rewrite (skip_ws_nil_app _ _ Hr). simpl. now rewrite Hnws.
Qed.

(** A quoted string reads back inside an object. *)
Lemma reads_string (s : jstring) : reads (quote s) (JString s).
Proof.
  intros fuel d tail Hd. exists (d :: tail). split.
  - unfold quote. simpl.
    rewrite <- app_assoc.
    change ([dquote] ++ d :: tail) with (dquote :: d :: tail).
    now rewrite read_quote_chars.
  - apply delimiter_cases in Hd as [->| ->]; reflexivity.
Qed.

(** One member of an object: its key, a colon, its value, and the comma
    or the closing brace after it. *)
Lemma read_member (fuel : nat) (acc : list (jstring * jsval)) (k V : jstring)
  (v : jsval) (d : char16) (tail : jstring) :
  reads V v -> delimiter d = true ->
  read_members (S (S fuel)) acc (quote k ++ ch ":" :: V ++ d :: tail)
  = if d =? ch "," then read_members (S fuel) (set_prop acc k v) tail
    else Some (JObject (set_prop acc k v), tail).
Proof.
  intros HV Hd. destruct (HV fuel d tail Hd) as (r & Hread & Hr).
  unfold quote.
  change ((dquote :: quote_chars k ++ [dquote]) ++ ch ":" :: V ++ d :: tail)
    with (dquote :: (quote_chars k ++ [dquote]) ++ ch ":" :: V ++ d :: tail).
  rewrite <- app_assoc.
  change ([dquote] ++ ch ":" :: V ++ d :: tail)
    with (dquote :: ch ":" :: V ++ d :: tail).
  cbn [read_members]. cbn [skip_ws is_ws]. 
  change (is_ws dquote) with false. cbv iota.
  rewrite N.eqb_refl, read_quote_chars.
  change (skip_ws (ch ":" :: V ++ d :: tail)) with (ch ":" :: V ++ d :: tail).
  cbv iota. change (ch ":" =? 58) with true. cbv iota.
  rewrite Hread, Hr.
  apply delimiter_cases in Hd as [->| ->]; reflexivity.
Qed.

End JSONContext.

(** ** The codec: round trip *)

Module RoundTrip.
Import JSON JSONFacts JSONContext.
Local Open Scope N_scope.

Lemma read_open_brace (fuel : nat) (k rest : jstring) :
  read_value (S fuel) (ch "{" :: quote k ++ rest)
  = read_members fuel [] (quote k ++ rest).
Proof. reflexivity. Qed.

Lemma object_text_1 (k V : jstring) :
  js "{" ++ join (js ",") [quote k ++ js ":" ++ V] ++ js "}"
  = ch "{" :: quote k ++ ch ":" :: V ++ [ch "}"].
Proof.
  change (js "{") with [ch "{"]. change (js "}") with [ch "}"].
  change (js ":") with [ch ":"]. cbn [join app].
  repeat (progress (rewrite <- ?app_assoc; cbn [app])). reflexivity.
Qed.

Lemma object_text_3 (k1 V1 k2 V2 k3 V3 : jstring) :
  js "{" ++ join (js ",") [quote k1 ++ js ":" ++ V1; quote k2 ++ js ":" ++ V2;
                           quote k3 ++ js ":" ++ V3] ++ js "}"
  = ch "{" :: quote k1 ++ ch ":" :: V1
      ++ ch "," :: quote k2 ++ ch ":" :: V2
      ++ ch "," :: quote k3 ++ ch ":" :: V3 ++ [ch "}"].
Proof.
  change (js "{") with [ch "{"]. change (js "}") with [ch "}"].
  change (js ":") with [ch ":"]. change (js ",") with [ch ","]. cbn [join app].
  repeat (progress (rewrite <- ?app_assoc; cbn [app])). reflexivity.
Qed.

Lemma quote_length (k : jstring) : (2 <= List.length (quote k))%nat.
Proof. unfold quote. simpl. rewrite length_app. simpl. lia. Qed.

(** The text of an object with one member is read as that object. *)
Lemma parse_object_1 (k V : jstring) (v : jsval) :
  reads V v ->
  JSON.parse (JString (js "{" ++ join (js ",") [quote k ++ js ":" ++ V] ++ js "}"))
  = Ok (JObject (set_prop [] k v)).
Proof.
  intros HV. unfold JSON.parse. cbn [to_string bind]. rewrite object_text_1.
  assert (Hfuel : exists fuel,
             List.length (ch "{" :: quote k ++ ch ":" :: V ++ [ch "}"]) = S (S fuel)).
  { pose proof (quote_length k).
    exists (List.length (ch "{" :: quote k ++ ch ":" :: V ++ [ch "}"]) - 2)%nat.
    simpl. rewrite length_app. simpl. lia. }
  destruct Hfuel as [fuel ->].
  rewrite read_open_brace.
  rewrite (read_member fuel [] k V v (ch "}") [] HV eq_refl).
  reflexivity.
Qed.

(** The text of an object with three members is read as that object. *)
Lemma parse_object_3 (k1 V1 k2 V2 k3 V3 : jstring) (v1 v2 v3 : jsval) :
  reads V1 v1 -> reads V2 v2 -> reads V3 v3 ->
  JSON.parse (JString (js "{" ++ join (js ",") [quote k1 ++ js ":" ++ V1;
                                                quote k2 ++ js ":" ++ V2;
                                                quote k3 ++ js ":" ++ V3] ++ js "}"))
  = Ok (JObject (set_prop (set_prop (set_prop [] k1 v1) k2 v2) k3 v3)).
Proof.
  intros H1 H2 H3. unfold JSON.parse. cbn [to_string bind]. rewrite object_text_3.
  match goal with
  | |- context [read_value (S (List.length ?text)) _] =>
      assert (Hfuel : exists fuel, List.length text = S (S (S (S fuel))));
        [exists (List.length text - 4)%nat|]
  end.
  { pose proof (quote_length k1). pose proof (quote_length k2).
    cbn [List.length].
    repeat (rewrite length_app; cbn [List.length]). lia. }
  destruct Hfuel as [fuel ->].
  rewrite read_open_brace.
  rewrite (read_member _ [] k1 V1 v1 (ch ",") _ H1 eq_refl).
  change (ch "," =? ch ",") with true. cbv iota.
  rewrite (read_member _ _ k2 V2 v2 (ch ",") _ H2 eq_refl).
  change (ch "," =? ch ",") with true. cbv iota.
  rewrite (read_member _ _ k3 V3 v3 (ch "}") [] H3 eq_refl).
  reflexivity.
Qed.

End RoundTrip.

(** ** Numbers: rounding a value that is a binary64 number *)

Module Exact.

Lemma iter_pos_nat {A : Type} (f : A -> A) (p : positive) :
  forall x, iter_pos f p x = Nat.iter (Pos.to_nat p) f x.
Proof.
  induction p as [p IH|p IH|]; intros x; cbn [iter_pos].
  - rewrite !IH, Pos2Nat.inj_xI.
    replace (S (2 * Pos.to_nat p)) with (Pos.to_nat p + (Pos.to_nat p + 1))%nat by lia.
    rewrite !Nat.iter_add. reflexivity.
  - rewrite !IH, Pos2Nat.inj_xO.
    replace (2 * Pos.to_nat p)%nat with (Pos.to_nat p + Pos.to_nat p)%nat by lia.
    now rewrite Nat.iter_add.
  - reflexivity.
Qed.

Lemma shift_value (m : positive) (n : nat) :
  Zpos (shift m n) = Zpos m * 2 ^ Z.of_nat n.
Proof.
  induction n as [|n IH].
  - simpl. lia.
  - unfold shift in *. rewrite Nat.iter_succ, Pos2Z.inj_xO, IH.
    rewrite Nat2Z.inj_succ, Z.pow_succ_r by lia. lia.
Qed.

Lemma shift_digits (m : positive) (n : nat) :
  Zpos (digits2_pos (shift m n)) = Zpos (digits2_pos m) + Z.of_nat n.
Proof.
  induction n as [|n IH].
  - simpl. lia.
  - unfold shift in *. rewrite Nat.iter_succ. cbn [digits2_pos].
    rewrite Pos2Z.inj_succ, IH. lia.
Qed.

Lemma shr_shift (n : nat) :
  forall m, Nat.iter n shr_1 (Build_shr_record (Zpos (shift m n)) false false)
            = Build_shr_record (Zpos m) false false.
Proof.
  induction n as [|n IH]; intros m; [reflexivity|].
  unfold shift. rewrite (Nat.iter_succ_r n _ xO m).
  rewrite (Nat.iter_succ n _ shr_1). fold (shift (xO m) n). rewrite IH. reflexivity.
Qed.

(** Rounding [m * 2^n] at the exponent [e - n] gives the number with
    mantissa [m] and exponent [e], when that is a binary64 number. *)
Lemma binary_round_aux_exact (sx : bool) (m : positive) (e : Z) (n : nat) :
  bounded prec emax m e = true ->
  binary_round_aux prec emax sx (Zpos (shift m n)) (e - Z.of_nat n) loc_Exact
  = S754_finite sx m e.
Proof.
  unfold bounded, canonical_mantissa. intros H.
  apply andb_prop in H as [Hcanon Hmax]. apply Z.eqb_eq in Hcanon.
  unfold binary_round_aux.
  assert (Hfirst : shr_fexp prec emax (Zpos (shift m n)) (e - Z.of_nat n) loc_Exact
                   = (Build_shr_record (Zpos m) false false, e)).
  { unfold shr_fexp. cbn [Zdigits2 shr_record_of_loc].
    rewrite shift_digits.
    replace (Zpos (digits2_pos m) + Z.of_nat n + (e - Z.of_nat n))
      with (Zpos (digits2_pos m) + e) by lia.
    rewrite Hcanon.
    replace (e - (e - Z.of_nat n)) with (Z.of_nat n) by lia.
    destruct n as [|n].
    - simpl. f_equal. lia.
    - cbn [Z.of_nat shr]. rewrite iter_pos_nat, SuccNat2Pos.id_succ, shr_shift.
      f_equal. lia. }
  rewrite Hfirst. cbn [shr_m loc_of_shr_record round_nearest_even].
  assert (Hsecond : shr_fexp prec emax (Zpos m) e loc_Exact
                    = (Build_shr_record (Zpos m) false false, e)).
  { unfold shr_fexp. cbn [Zdigits2 shr_record_of_loc].
    rewrite Hcanon, Z.sub_diag. reflexivity. }
  rewrite Hsecond. cbn [shr_m]. now rewrite Hmax.
Qed.

Lemma digits2_size (p : positive) : digits2_pos p = Pos.size p.
Proof. induction p as [p IH|p IH|]; simpl; now rewrite ?IH. Qed.

Lemma digits2_bounds (p : positive) :
  2 ^ (Zpos (digits2_pos p) - 1) <= Zpos p < 2 ^ Zpos (digits2_pos p).
Proof.
  rewrite digits2_size.
  pose proof (Pos.size_gt p) as Hgt. pose proof (Pos.size_le p) as Hle.
  apply Pos2Z.pos_lt_pos in Hgt. apply Pos2Z.pos_le_pos in Hle.
  rewrite Pos2Z.inj_pow in Hgt, Hle. rewrite (Pos2Z.inj_xO p) in Hle.
  split; [|exact Hgt].
  assert (Hpow : 2 ^ Zpos (Pos.size p) = 2 * 2 ^ (Zpos (Pos.size p) - 1)).
  { rewrite <- Z.pow_succ_r by lia. f_equal. lia. }
  lia.
Qed.

Lemma fexp_le (a b : Z) : a <= b -> fexp prec emax a <= fexp prec emax b.
Proof. unfold fexp, emin, prec, emax. lia. Qed.

(** An integer that is a binary64 number is the value of its decimal
    digits. *)
Lemma integer_exact (sx : bool) (m : positive) (e : Z) :
  bounded prec emax m e = true -> 0 <= e ->
  decimal_to_number sx (Zpos m * 2 ^ e) 0 = S754_finite sx m e.
Proof.
  intros Hb He.
  pose proof (shift_value m (Z.to_nat e)) as Hv. rewrite Z2Nat.id in Hv by lia.
  rewrite <- Hv. unfold decimal_to_number.
  change (0 <=? 0) with true. cbv iota.
  change (Z.to_pos (10 ^ 0)) with 1%positive. rewrite Pos.mul_1_r.
  unfold binary_round.
  pose proof Hb as Hb'. unfold bounded, canonical_mantissa in Hb'.
  apply andb_prop in Hb' as [Hcanon _]. apply Z.eqb_eq in Hcanon.
  rewrite shift_digits, Z2Nat.id, Z.add_0_r, Hcanon by lia.
  assert (Halign : shl_align (shift m (Z.to_nat e)) 0 e = (shift m (Z.to_nat e), 0)).
  { unfold shl_align. rewrite Z.sub_0_r. destruct e; try reflexivity. lia. }
  rewrite Halign.
  replace 0 with (e - Z.of_nat (Z.to_nat e)) at 1 by (rewrite Z2Nat.id; lia).
  now apply binary_round_aux_exact.
Qed.

Lemma new_location_exact (steps : Z) : new_location steps 0 = loc_Exact.
Proof.
  unfold new_location, new_location_even, new_location_odd.
  now destruct (Z.even steps).
Qed.

(** A binary64 number with a negative exponent is the value of its exact
    decimal expansion, [m * 5^(-e)] divided by [10^(-e)]. *)
Lemma fraction_exact (sx : bool) (m : positive) (e : Z) :
  bounded prec emax m e = true -> e < 0 ->
  decimal_to_number sx (Zpos m * 5 ^ (- e)) e = S754_finite sx m e.
Proof.
  intros Hb He.
  pose proof Hb as Hb'. unfold bounded, canonical_mantissa in Hb'.
  apply andb_prop in Hb' as [Hcanon _]. apply Z.eqb_eq in Hcanon.
  assert (H5 : 0 < 5 ^ (- e)) by (apply Z.pow_pos_nonneg; lia).
  assert (H10 : 0 < 10 ^ (- e)) by (apply Z.pow_pos_nonneg; lia).
  assert (H2 : 0 < 2 ^ (- e)) by (apply Z.pow_pos_nonneg; lia).
  assert (Hsplit : 10 ^ (- e) = 2 ^ (- e) * 5 ^ (- e)).
  { change 10 with (2 * 5). apply Z.pow_mul_l. }
  destruct (Zpos m * 5 ^ (- e)) as [|P|P] eqn:HP; try lia.
  destruct (10 ^ (- e)) as [|T|T] eqn:HT; try lia.
  unfold decimal_to_number.
  replace (0 <=? e) with false by (symmetry; apply Z.leb_gt; lia).
  rewrite HT. cbn [Z.to_pos]. unfold SFdiv.
  set (e' := Z.min (fexp prec emax (Zpos (digits2_pos P) - Zpos (digits2_pos T))) 0).
  assert (He' : e' <= e).
  { assert (Hd : Zpos (digits2_pos P) - Zpos (digits2_pos T) <= Zpos (digits2_pos m) + e).
    { pose proof (digits2_bounds P) as [HP1 _].
      pose proof (digits2_bounds T) as [_ HT2].
      pose proof (digits2_bounds m) as [_ Hm2].
      assert (Hprod : Zpos P * 2 ^ (- e) = Zpos m * Zpos T) by (rewrite <- HP, Hsplit; ring).
      assert (Hlt : 2 ^ (Zpos (digits2_pos P) - 1 + - e)
                    < 2 ^ (Zpos (digits2_pos m) + Zpos (digits2_pos T))).
      { rewrite !Z.pow_add_r by lia. nia. }
      apply Z.pow_lt_mono_r_iff in Hlt; lia. }
    apply fexp_le in Hd. rewrite Hcanon in Hd. unfold e'. lia. }
  set (n := Z.to_nat (e - e')).
  assert (Hcore : SFdiv_core_binary prec emax (Zpos P) 0 (Zpos T) 0
                  = (Zpos (shift m n), e - Z.of_nat n, loc_Exact)).
  { unfold SFdiv_core_binary. cbn [Zdigits2].
    rewrite !Z.add_0_r, Z.sub_0_r. fold e'.
    replace (0 - e') with (- e') by lia.
    assert (Hm' : match - e' with
                  | Zpos _ => Z.shiftl (Zpos P) (- e')
                  | Z0 => Zpos P
                  | Zneg _ => 0
                  end = Zpos (shift m n) * Zpos T).
    { replace (match - e' with
               | Zpos _ => Z.shiftl (Zpos P) (- e')
               | Z0 => Zpos P
               | Zneg _ => 0
               end) with (Z.shiftl (Zpos P) (- e')) by (destruct e'; try reflexivity; lia).
      rewrite Z.shiftl_mul_pow2 by lia.
      rewrite shift_value. unfold n. rewrite Z2Nat.id by lia.
      rewrite <- HP, Hsplit.
      replace (- e') with ((e - e') + - e) by lia.
      rewrite Z.pow_add_r by lia. ring. }
    rewrite Hm'.
    destruct (Z.div_eucl (Zpos (shift m n) * Zpos T) (Zpos T)) as [q r] eqn:Hdiv.
    assert (Hq : q = Zpos (shift m n)).
    { change q with (fst (q, r)). rewrite <- Hdiv.
      fold (Z.div (Zpos (shift m n) * Zpos T) (Zpos T)).
      apply Z.div_mul. lia. }
    assert (Hr : r = 0).
    { change r with (snd (q, r)). rewrite <- Hdiv.
      fold (Z.modulo (Zpos (shift m n) * Zpos T) (Zpos T)).
      apply Z.mod_mul. lia. }
    subst q r. rewrite new_location_exact.
    f_equal. f_equal. unfold n. rewrite Z2Nat.id; lia. }
  rewrite Hcore. rewrite xorb_false_r.
  now apply binary_round_aux_exact.
Qed.

(** The exact decimal expansion of a binary64 number reads as that
    number. *)
Lemma exact_decimal_reads (sx : bool) (m : positive) (e : Z) :
  bounded prec emax m e = true ->
  decimal_to_number sx (fst (exact_decimal m e)) (snd (exact_decimal m e))
  = S754_finite sx m e.
Proof.
  intros Hb. unfold exact_decimal. destruct (0 <=? e) eqn:He.
  - apply Z.leb_le in He. now apply integer_exact.
  - apply Z.leb_gt in He. now apply fraction_exact.
Qed.

(** The sign of a decimal literal is the sign of its value. *)
Lemma decimal_to_number_opp (c q : Z) :
  decimal_to_number true c q = SFopp (decimal_to_number false c q).
Proof.
  assert (Haux : forall mx ex lx,
             binary_round_aux prec emax true mx ex lx
             = SFopp (binary_round_aux prec emax false mx ex lx)).
  { intros mx ex lx. unfold binary_round_aux.
    destruct (shr_fexp prec emax mx ex lx) as [mrs e1].
    destruct (shr_fexp prec emax _ e1 loc_Exact) as [mrs' e2].
    destruct (shr_m mrs'); try reflexivity.
    now destruct (e2 <=? emax - prec). }
  unfold decimal_to_number. destruct c as [|p|p]; try reflexivity.
  destruct (0 <=? q).
  - unfold binary_round.
    destruct (shl_align _ 0 _) as [mz ez]. apply Haux.
  - unfold SFdiv.
    destruct (SFdiv_core_binary prec emax (Zpos p) 0 _ 0) as [[mz ez] lz].
    apply Haux.
Qed.

End Exact.

(** ** Numbers: decimal digits *)

Module Digits.
Import JSON.

Lemma digits_from_app (acc : Z) (a b : jstring) :
  digits_from acc (a ++ b) = digits_from (digits_from acc a) b.
Proof. apply fold_left_app. Qed.

Lemma digits_from_shift (b : jstring) :
  forall acc, digits_from acc b = acc * 10 ^ Z.of_nat (List.length b) + digits_from 0 b.
Proof.
  induction b as [|c b IH]; intros acc; cbn [digits_from fold_left List.length].
  - simpl. lia.
  - fold (digits_from (acc * 10 + Z.of_N (c - ch "0")) b).
    fold (digits_from (0 * 10 + Z.of_N (c - ch "0")) b).
    rewrite (IH (acc * 10 + _)), (IH (0 * 10 + _)).
    rewrite Nat2Z.inj_succ, Z.pow_succ_r by lia. ring.
Qed.

Lemma digits_value_app (a b : jstring) :
  digits_value (a ++ b)
  = digits_value a * 10 ^ Z.of_nat (List.length b) + digits_value b.
Proof.
  unfold digits_value. fold (digits_from 0 (a ++ b)). fold (digits_from 0 a).
  fold (digits_from 0 b). rewrite digits_from_app. apply digits_from_shift.
Qed.

Lemma digits_value_zeros (n : Z) : digits_value (zeros n) = 0.
Proof.
  unfold zeros, digits_value. induction (Z.to_nat n) as [|j IH]; [reflexivity|].
  cbn [repeat fold_left]. exact IH.
Qed.

Lemma zeros_length (n : Z) : 0 <= n -> Z.of_nat (List.length (zeros n)) = n.
Proof. intros H. unfold zeros. rewrite repeat_length. lia. Qed.

Lemma digits_from_acc (d : Decimal.uint) :
  forall acc : positive,
    digits_from (Zpos acc) (uint_chars d) = Zpos (Pos.of_uint_acc d acc).
Proof.
  induction d; intros acc; cbn [uint_chars Pos.of_uint_acc]; [reflexivity| ..];
    cbn [digits_from fold_left];
    match goal with
    | |- fold_left ?f ?l ?a = _ => change (fold_left f l a) with (digits_from a l)
    end;
    rewrite <- IHd; f_equal;
    match goal with
    | |- context [Z.of_N ?t] =>
        let v := eval vm_compute in (Z.of_N t) in change (Z.of_N t) with v
    end; lia.
Qed.

Lemma value_of_uint (d : Decimal.uint) :
  digits_from 0 (uint_chars d) = Z.of_N (Pos.of_uint d).
Proof.
  induction d; cbn [uint_chars Pos.of_uint]; [reflexivity|exact IHd| ..];
    cbn [digits_from fold_left];
    match goal with
    | |- fold_left ?f ?l ?a = _ => change (fold_left f l a) with (digits_from a l)
    end;
    cbn [Z.of_N]; rewrite <- digits_from_acc; f_equal.
Qed.

(** The digits of a number denote it. *)
Lemma digits_value_digits (n : N) : digits_value (digits n) = Z.of_N n.
Proof.
  unfold digits. change (digits_value ?l) with (digits_from 0 l).
  rewrite value_of_uint. f_equal. apply DecimalN.Unsigned.of_to.
Qed.

Lemma uint_chars_digits (d : Decimal.uint) : forallb is_digit (uint_chars d) = true.
Proof. induction d; cbn [uint_chars forallb]; try reflexivity; rewrite IHd; reflexivity. Qed.

Lemma digits_are_digits (n : N) : forallb is_digit (digits n) = true.
Proof. apply uint_chars_digits. Qed.

(** The digits of a positive number start with a digit that is not 0. *)
Lemma digits_head (p : positive) :
  exists d more, digits (Npos p) = d :: more
                 /\ is_digit d = true /\ (N.eqb d (ch "0")) = false.
Proof.
  unfold digits. cbn [N.to_uint].
  pose proof (DecimalPos.Unsigned.to_of (Pos.to_uint p)) as Hnorm.
  rewrite DecimalPos.Unsigned.of_to in Hnorm. cbn [N.to_uint] in Hnorm.
  pose proof (DecimalPos.Unsigned.to_uint_nonzero p) as Hnz.
  pose proof (DecimalFacts.nzhead_nonzero (Pos.to_uint p)) as Hhead.
  assert (Hself : Decimal.nzhead (Pos.to_uint p) = Pos.to_uint p).
  { unfold Decimal.unorm in Hnorm.
    destruct (Decimal.nzhead (Pos.to_uint p)) eqn:E; now symmetry. }
  rewrite Hself in Hhead.
  pose proof (DecimalPos.Unsigned.to_uint_nonnil p) as Hnil.
  destruct (Pos.to_uint p) as [|u|u|u|u|u|u|u|u|u|u]; cbn [uint_chars];
    try (now elim Hnil); try (now elim (Hhead u));
    eexists _, _; (split; [reflexivity|split; reflexivity]).
Qed.

End Digits.

(** ** Numbers: the text of a number is read as the digits it was written from *)

Module NumberText.
Import JSON Digits.

Lemma span_digits (a b : jstring) :
  forallb is_digit a = true -> stops b -> span is_digit (a ++ b) = (a, b).
Proof.
  intros Ha Hb. induction a as [|c a IH]; cbn [app].
  - destruct b as [|c b]; [reflexivity|]. cbn [span]. cbn in Hb. now rewrite Hb.
  - cbn [forallb] in Ha. apply andb_prop in Ha as [Hc Ha].
    cbn [span]. rewrite Hc, (IH Ha). reflexivity.
Qed.

Lemma digits_nonempty (n : N) : digits n <> [].
Proof.
  destruct n as [|p]; [discriminate|].
  destruct (digits_head p) as (d & more & -> & _). discriminate.
Qed.

Lemma read_exponent_text (e : Z) : read_exponent (exponent_text e) = Some e.
Proof.
  unfold exponent_text.
  pose proof (digits_are_digits (Z.to_N (Z.abs e))) as Hds.
  pose proof (digits_nonempty (Z.to_N (Z.abs e))) as Hne.
  pose proof (digits_value_digits (Z.to_N (Z.abs e))) as Hv.
  pose proof (span_digits _ [] Hds I) as Hspan. rewrite List.app_nil_r in Hspan.
  destruct (digits (Z.to_N (Z.abs e))) as [|d ds] eqn:E; [now elim Hne|].
  destruct (e <? 0) eqn:Hneg.
  - change (read_exponent (js "e" ++ js "-" ++ d :: ds))
      with (let '(ds', tail) := span is_digit (d :: ds) in
            match ds', tail with
            | _ :: _, [] => Some (- digits_value ds')
            | _, _ => None
            end).
    rewrite Hspan. cbv iota beta. rewrite Hv. apply Z.ltb_lt in Hneg. f_equal. lia.
  - change (read_exponent (js "e" ++ js "+" ++ d :: ds))
      with (let '(ds', tail) := span is_digit (d :: ds) in
            match ds', tail with
            | _ :: _, [] => Some (digits_value ds')
            | _, _ => None
            end).
    rewrite Hspan. cbv iota beta. rewrite Hv. apply Z.ltb_ge in Hneg. f_equal. lia.
Qed.

Lemma exponent_text_stops (e : Z) : stops (exponent_text e).
Proof. reflexivity. Qed.

Lemma read_fraction_exponent (e : Z) :
  read_fraction (exponent_text e) = Some ([], e).
Proof.
  change (read_fraction (exponent_text e))
    with (match read_exponent (exponent_text e) with
          | Some e' => Some (@nil char16, e')
          | None => None
          end).
  now rewrite read_exponent_text.
Qed.

Lemma read_fraction_digits (frac ex : jstring) (e : Z) :
  forallb is_digit frac = true -> frac <> [] -> stops ex ->
  read_exponent ex = Some e ->
  read_fraction (ch "." :: frac ++ ex) = Some (frac, e).
Proof.
  intros Hfrac Hne Hex He.
  change (read_fraction (ch "." :: frac ++ ex))
    with (let '(ds, tail) := span is_digit (frac ++ ex) in
          match ds, read_exponent tail with
          | _ :: _, Some e' => Some (ds, e')
          | _, _ => None
          end).
  rewrite (span_digits _ _ Hfrac Hex). cbv iota beta. rewrite He.
  destruct frac; [now elim Hne|reflexivity].
Qed.

(** A token made of an optional minus sign, an integer part and what
    [read_fraction] accepts. *)
Lemma read_number_parts (neg : bool) (d : char16) (more tail frac : jstring) (e : Z) :
  forallb is_digit (d :: more) = true ->
  (N.eqb d (ch "0")) && negb (match more with [] => true | _ => false end) = false ->
  stops tail ->
  read_fraction tail = Some (frac, e) ->
  read_number ((if neg then js "-" else []) ++ (d :: more) ++ tail)
  = Some (decimal_to_number neg (digits_value ((d :: more) ++ frac))
            (e - Z.of_nat (List.length frac))).
Proof.
  intros Hint Hzero Htail Hfrac.
  assert (Hd : N.eqb d (ch "-") = false).
  { cbn [forallb] in Hint. apply andb_prop in Hint as [Hd _].
    unfold is_digit in Hd. apply andb_prop in Hd as [Hd _].
    apply N.leb_le in Hd. apply N.eqb_neq. intros ->. now vm_compute in Hd. }
  destruct neg.
  - change (js "-" ++ (d :: more) ++ tail) with (ch "-" :: (d :: more) ++ tail).
    unfold read_number. cbv iota. rewrite N.eqb_refl. cbv iota.
    rewrite (span_digits _ _ Hint Htail). cbv iota.
    rewrite Hzero, Hfrac. reflexivity.
  - change ([] ++ (d :: more) ++ tail) with (d :: more ++ tail).
    unfold read_number. cbv iota. rewrite Hd. cbv iota.
    change (d :: more ++ tail) with ((d :: more) ++ tail).
    rewrite (span_digits _ _ Hint Htail). cbv iota.
    rewrite Hzero, Hfrac. reflexivity.
Qed.

End NumberText.

Module FormatRead.
Import JSON Digits NumberText.

Lemma decimal_to_number_scale (neg : bool) (s j : Z) :
  0 < s -> 0 <= j ->
  decimal_to_number neg (s * 10 ^ j) 0 = decimal_to_number neg s j.
Proof.
  intros Hs Hj.
  assert (H10 : 0 < 10 ^ j) by (apply Z.pow_pos_nonneg; lia).
  destruct s as [|p|p]; try lia.
  destruct (Zpos p * 10 ^ j) as [|p'|p'] eqn:Hp; try lia.
  unfold decimal_to_number.
  change (0 <=? 0) with true. replace (0 <=? j) with true by (symmetry; now apply Z.leb_le).
  cbv iota. f_equal. apply Pos2Z.inj.
  rewrite !Pos2Z.inj_mul, !Z2Pos.id by (try apply Z.pow_pos_nonneg; lia).
  rewrite <- Hp. change (10 ^ 0) with 1. lia.
Qed.

Lemma zeros_digits (n : Z) : forallb is_digit (zeros n) = true.
Proof.
  unfold zeros. induction (Z.to_nat n) as [|j IH]; [reflexivity|].
  cbn [repeat forallb]. now rewrite IH.
Qed.

Lemma forallb_firstn_skipn {A} (p : A -> bool) (n : nat) (l : list A) :
  forallb p l = true -> forallb p (firstn n l) = true /\ forallb p (skipn n l) = true.
Proof.
  intros H. rewrite <- (firstn_skipn n l) in H. rewrite forallb_app in H.
  now apply andb_prop in H.
Qed.

(** The text Number::toString writes for the digits of [s] and the exponent
    [n] is read as [s * 10^(n - k)], for the number [k] of digits. *)
Lemma format_digits_reads (neg : bool) (s n : Z) :
  0 < s ->
  read_number ((if neg then js "-" else []) ++ format_digits s n)
  = Some (decimal_to_number neg s (n - digit_count s)).
Proof.
  intros Hs. unfold format_digits, digit_count.
  destruct s as [|p|p]; try lia. cbn [Z.to_N].
  destruct (digits_head p) as (d & more & Hds & Hd & Hd0).
  pose proof (digits_are_digits (Npos p)) as Hall.
  pose proof (digits_value_digits (Npos p)) as Hval.
  rewrite Hds in *. cbn [Z.of_N] in Hval.
  set (k := Z.of_nat (List.length (d :: more))).
  assert (Hk : k = Z.of_nat (List.length more) + 1) by (unfold k; cbn [List.length]; lia).
  clearbody k.
  destruct ((k <=? n) && (n <=? 21)) eqn:B1.
  { apply andb_prop in B1 as [B1 _]. apply Z.leb_le in B1.
    rewrite <- (List.app_nil_r ((d :: more) ++ zeros (n - k))).
    change ((d :: more) ++ zeros (n - k)) with (d :: more ++ zeros (n - k)).
    erewrite read_number_parts with (frac := []) (e := 0).
    - rewrite List.app_nil_r, Z.sub_0_r.
      change (d :: more ++ zeros (n - k)) with ((d :: more) ++ zeros (n - k)).
      rewrite digits_value_app, digits_value_zeros, Hval, zeros_length, Z.add_0_r by lia.
      f_equal. apply decimal_to_number_scale; lia.
    - change (d :: more ++ zeros (n - k)) with ((d :: more) ++ zeros (n - k)).
      now rewrite forallb_app, Hall, zeros_digits.
    - now rewrite Hd0.
    - exact I.
    - reflexivity. }
  destruct ((0 <? n) && (n <=? 21)) eqn:B2.
  { apply andb_prop in B2 as [B2 B2']. apply Z.ltb_lt in B2. apply Z.leb_le in B2'.
    assert (Hnk : n < k).
    { apply andb_false_iff in B1 as [B1|B1]; apply Z.leb_gt in B1; lia. }
    destruct (Z.to_nat n) as [|j] eqn:Hn; [lia|].
    cbn [firstn skipn].
    destruct (forallb_firstn_skipn is_digit j more) as [Hf Hsk].
    { cbn [forallb] in Hall. now apply andb_prop in Hall. }
    assert (Hlen : Z.of_nat (List.length (skipn j more)) = k - n).
    { rewrite length_skipn. lia. }
    assert (Hne : skipn j more <> []).
    { intros E. rewrite E in Hlen. cbn in Hlen. lia. }
    change ((d :: firstn j more) ++ js "." ++ skipn j more)
      with ((d :: firstn j more) ++ ch "." :: skipn j more).
    rewrite <- (List.app_nil_r (skipn j more)) at 1.
    erewrite read_number_parts with (frac := skipn j more) (e := 0).
    - change ((d :: firstn j more) ++ skipn j more)
        with (d :: firstn j more ++ skipn j more).
      rewrite firstn_skipn, Hval, Hlen. f_equal. f_equal. lia.
    - cbn [forallb]. cbn [forallb] in Hall. apply andb_prop in Hall as [-> _].
      now rewrite Hf.
    - now rewrite Hd0.
    - reflexivity.
    - now apply read_fraction_digits. }
  destruct ((-6 <? n) && (n <=? 0)) eqn:B3.
  { apply andb_prop in B3 as [_ B3]. apply Z.leb_le in B3.
    change (js "0." ++ zeros (- n) ++ d :: more)
      with ([ch "0"] ++ ch "." :: zeros (- n) ++ d :: more).
    rewrite <- (List.app_nil_r (zeros (- n) ++ d :: more)).
    erewrite read_number_parts with (frac := zeros (- n) ++ d :: more) (e := 0).
    - rewrite !digits_value_app, digits_value_zeros, Hval.
      change (digits_value [ch "0"]) with 0.
      rewrite length_app, Nat2Z.inj_add, zeros_length by lia.
      f_equal. f_equal; cbn [List.length]; lia.
    - reflexivity.
    - reflexivity.
    - reflexivity.
    - apply read_fraction_digits; try reflexivity.
      + now rewrite forallb_app, zeros_digits, Hall.
      + intros E. apply app_eq_nil in E as [_ E]. discriminate. }
  fold (exponent_text (n - 1)).
  destruct (k =? 1) eqn:B4.
  { apply Z.eqb_eq in B4.
    erewrite read_number_parts with (frac := []) (e := n - 1).
    - rewrite List.app_nil_r, Hval. f_equal. f_equal. cbn [List.length]. lia.
    - exact Hall.
    - now rewrite Hd0.
    - apply exponent_text_stops.
    - apply read_fraction_exponent. }
  { apply Z.eqb_neq in B4.
    cbn [firstn skipn].
    assert (Hne : more <> []).
    { intros E. rewrite E in Hk. cbn in Hk. lia. }
    change ([d] ++ js "." ++ more ++ exponent_text (n - 1))
      with ([d] ++ ch "." :: more ++ exponent_text (n - 1)).
    erewrite read_number_parts with (frac := more) (e := n - 1).
    - change ([d] ++ more) with (d :: more). rewrite Hval. f_equal. f_equal. lia.
    - cbn [forallb]. cbn [forallb] in Hall. apply andb_prop in Hall as [-> _].
      reflexivity.
    - apply andb_false_r.
    - reflexivity.
    - apply read_fraction_digits.
      + cbn [forallb] in Hall. now apply andb_prop in Hall.
      + exact Hne.
      + apply exponent_text_stops.
      + apply read_exponent_text. }
Qed.

End FormatRead.

Module ReadsBack.
Import JSON Digits NumberText FormatRead.

Lemma digit_is_number_char (c : char16) : is_digit c = true -> is_number_char c = true.
Proof. unfold is_number_char. now intros ->. Qed.

Lemma digits_number_chars (l : jstring) :
  forallb is_digit l = true -> forallb is_number_char l = true.
Proof.
  induction l as [|c l IH]; [reflexivity|]. cbn [forallb]. intros H.
  apply andb_prop in H as [Hc Hl]. now rewrite (digit_is_number_char _ Hc), IH.
Qed.

Lemma exponent_number_chars (e : Z) : forallb is_number_char (exponent_text e) = true.
Proof.
  unfold exponent_text. rewrite !forallb_app.
  rewrite (digits_number_chars _ (digits_are_digits _)).
  now destruct (e <? 0).
Qed.

Lemma format_number_chars (neg : bool) (s n : Z) :
  forallb is_number_char ((if neg then js "-" else []) ++ format_digits s n) = true.
Proof.
  rewrite forallb_app.
  replace (forallb is_number_char (if neg then js "-" else [])) with true
    by now destruct neg.
  unfold format_digits.
  pose proof (digits_number_chars _ (digits_are_digits (Z.to_N s))) as Hds.
  destruct (forallb_firstn_skipn is_number_char (Z.to_nat n) _ Hds) as [Hf Hs].
  destruct (forallb_firstn_skipn is_number_char 1 _ Hds) as [Hf1 Hs1].
  fold (exponent_text (n - 1)).
  pose proof (exponent_number_chars (n - 1)) as He.
  pose proof (fun j => digits_number_chars _ (zeros_digits j)) as Hz.
  repeat match goal with
         | |- context [if ?b then _ else _] => destruct b
         end;
    rewrite ?forallb_app, ?Hds, ?Hf, ?Hs, ?Hf1, ?Hs1, ?He, ?Hz; reflexivity.
Qed.

Lemma number_char_head (c : char16) :
  is_number_char c = true ->
  is_ws c = false
  /\ N.eqb c (ch "{") = false /\ N.eqb c (ch "[") = false /\ N.eqb c dquote = false
  /\ N.eqb c (ch "t") = false /\ N.eqb c (ch "f") = false /\ N.eqb c (ch "n") = false.
Proof.
  unfold is_number_char, is_digit, is_ws. intros H.
  repeat (apply orb_prop in H as [H|H]);
    try (apply N.eqb_eq in H; subst c; repeat split; reflexivity).
  apply andb_prop in H as [Hlo Hhi]. apply N.leb_le in Hlo, Hhi.
  change (ch "0") with 48%N in Hlo. change (ch "9") with 57%N in Hhi.
  unfold dquote.
  change (ch "{") with 123%N. change (ch "[") with 91%N. change (ch "t") with 116%N.
  change (ch "f") with 102%N. change (ch "n") with 110%N.
  repeat split; try (apply N.eqb_neq; lia).
  repeat (apply orb_false_intro); apply N.eqb_neq; lia.
Qed.

Lemma span_all (p : char16 -> bool) (l : jstring) :
  forallb p l = true -> span p l = (l, []).
Proof.
  induction l as [|c l IH]; [reflexivity|]. cbn [forallb span]. intros H.
  apply andb_prop in H as [-> Hl]. now rewrite (IH Hl).
Qed.

(** A text of number characters that [read_number] accepts is what
    [JSON.parse] reads as that number. *)
Lemma parse_number_text (T : jstring) (x : number) :
  forallb is_number_char T = true -> read_number T = Some x ->
  JSON.parse (JString T) = Ok (JNumber x).
Proof.
  intros Hall Hread. destruct T as [|c rest]; [discriminate Hread|].
  pose proof Hall as Hc. cbn [forallb] in Hc. apply andb_prop in Hc as [Hc _].
  destruct (number_char_head c Hc) as (Hws & E1 & E2 & E3 & E4 & E5 & E6).
  unfold JSON.parse. cbn [to_string bind List.length read_value skip_ws].
  rewrite Hws, E1, E2, E3, E4, E5, E6.
  rewrite (span_all _ _ Hall), Hread. reflexivity.
Qed.

Lemma reads_as_exact (x : number) (s n : Z) :
  is_finite x = true -> x <> S754_zero true -> x <> S754_zero false ->
  reads_as x s n = true ->
  0 < s /\ decimal_to_number false s (n - digit_count s) = x.
Proof.
  unfold reads_as. intros Hfin Hz1 Hz2 H.
  fold (num_eq (decimal_to_number false s (n - digit_count s)) x) in H.
  apply num_eq_cases in H.
  destruct H as [(a & b & _ & ->)|[(a & _ & ->)|(a & m & e & Hd & ->)]].
  - destruct b; contradiction.
  - discriminate.
  - split; [|exact Hd].
    destruct s as [|p|p]; try lia; discriminate Hd.
Qed.

(** The digits [shortest] settles on read as the number, when the search
    runs as far as the exact decimal expansion. *)
Lemma shortest_reads (x : number) (W K n : Z) :
  reads_as x W n = true ->
  forall (fuel : nat) (k : Z),
    (0 < fuel)%nat -> Z.of_nat fuel = K - k + 1 ->
    reads_as x (fst (shortest fuel k x W K n)) (snd (shortest fuel k x W K n)) = true.
Proof.
  intros Hexact. induction fuel as [|fuel IH]; intros k Hpos Hfuel; [lia|].
  cbn [shortest].
  destruct (reads_as x (W / 10 ^ (K - k)) n
            && (((2 * (W mod 10 ^ (K - k)) <? 10 ^ (K - k))
                 || ((2 * (W mod 10 ^ (K - k)) =? 10 ^ (K - k)) && Z.even (W / 10 ^ (K - k))))
                || negb (reads_as x
                           (fst (if W / 10 ^ (K - k) + 1 =? 10 ^ k
                                 then (1, n + 1) else (W / 10 ^ (K - k) + 1, n)))
                           (snd (if W / 10 ^ (K - k) + 1 =? 10 ^ k
                                 then (1, n + 1) else (W / 10 ^ (K - k) + 1, n))))))
    eqn:Hlow.
  - apply andb_prop in Hlow as [Hlow _]. exact Hlow.
  - destruct (reads_as x
                (fst (if W / 10 ^ (K - k) + 1 =? 10 ^ k
                      then (1, n + 1) else (W / 10 ^ (K - k) + 1, n)))
                (snd (if W / 10 ^ (K - k) + 1 =? 10 ^ k
                      then (1, n + 1) else (W / 10 ^ (K - k) + 1, n)))) eqn:Hup.
    + exact Hup.
    + destruct fuel as [|fuel'].
      * exfalso. assert (Hk : K - k = 0) by lia.
        rewrite Hk in Hlow. change (10 ^ 0) with 1 in Hlow.
        rewrite Z.div_1_r, Z.mod_1_r, Hexact in Hlow. discriminate Hlow.
      * apply IH; lia.
Qed.

(** Every finite binary64 number other than -0 reads back from the text
    [JSON.stringify] writes for it. *)
Theorem number_reads_back (x : number) :
  is_number x = true -> is_finite x = true -> x <> negative_zero ->
  reads_back x.
Proof.
  intros Hvalid Hfin Hnz. unfold reads_back.
  change (JSON.stringify (JNumber x)) with (JString (number_text x)).
  unfold number_text. rewrite Hfin.
  destruct x as [[|]| | |sx m e]; try discriminate; try reflexivity; try (now elim Hnz).
  unfold is_number in Hvalid. cbn [valid_binary] in Hvalid.
  assert (Htext : Number_toString (S754_finite sx m e)
                  = (if sx then js "-" else []) ++ positive_toString m e).
  { now destruct sx. }
  rewrite Htext. unfold positive_toString.
  destruct (exact_decimal m e) as [W E] eqn:Hexact.
  pose proof (Exact.exact_decimal_reads false m e Hvalid) as Hreads.
  rewrite Hexact in Hreads. cbn [fst snd] in Hreads.
  set (K := digit_count W).
  assert (HK : 0 < K).
  { unfold K, digit_count. pose proof (digits_nonempty (Z.to_N W)) as Hne.
    destruct (digits (Z.to_N W)); [now elim Hne|]. cbn [List.length]. lia. }
  assert (Hstart : reads_as (S754_finite false m e) W (K + E) = true).
  { unfold reads_as. fold K. replace (K + E - K) with E by lia.
    rewrite Hreads. unfold SFeqb, SFcompare.
    rewrite Z.compare_refl. fold (Pos.compare m m). now rewrite Pos.compare_refl. }
  pose proof (shortest_reads _ W K (K + E) Hstart (Z.to_nat K) 1) as Hshort.
  destruct (shortest (Z.to_nat K) 1 (S754_finite false m e) W K (K + E)) as [s n].
  cbn [fst snd] in Hshort.
  apply reads_as_exact in Hshort; try discriminate; try reflexivity; try lia.
  destruct Hshort as [Hs Hvalue].
  apply parse_number_text.
  - apply format_number_chars.
  - rewrite (format_digits_reads sx s n Hs). f_equal.
    destruct sx; [|exact Hvalue].
    now rewrite Exact.decimal_to_number_opp, Hvalue.
Qed.

End ReadsBack.

Section CodecRoundTrip.
Import JSON JSONFacts JSONContext RoundTrip.

(** C4 fails as stated: the Deposited event with the amount [Infinity] is
    encoded with the payload text [{"amount":null}] and decoded with the
    amount [null]. *)
Lemma codec_loses_infinity :
  (let* wire := Codec.encode (Codec.value_of (Deposited Infinity)) in Codec.decode wire)
  = Ok (JObject [(js "type", JString (js "Deposited"));
                 (js "data", JObject [(js "amount", JNull)])])
  /\ (let* wire := Codec.encode (Codec.value_of (Deposited Infinity)) in Codec.decode wire)
     <> Ok (Codec.value_of (Deposited Infinity)).
Proof. split; [reflexivity|discriminate]. Qed.

(** The amount -0 is written [0] and comes back as 0. *)
Lemma codec_negative_zero :
  (let* wire := Codec.encode (Codec.value_of (Deposited negative_zero)) in
   Codec.decode wire)
  = Ok (Codec.value_of (Deposited (num_of_Z 0))).
Proof. reflexivity. Qed.

(** [encode] writes the payload text [text] for [event]; [decode] reads the
    text back with [Hparse] and rebuilds the event. *)
Ltac through_codec event tag Hparse :=
  match type of Hparse with
  | JSON.parse (JString ?text) = _ =>
      change (Codec.encode (Codec.value_of event))
        with (Ok (Codec.transport tag (Some text)));
      cbn [bind]; unfold Codec.decode, Codec.transport;
      change (get (JObject [(js "type", JString tag); (js "data", JString text)])
                (js "data"))
        with (Ok (JString text));
      cbn [bind];
      change (or_else (JString text) (JString (js "{}"))) with (JString text);
      rewrite Hparse; reflexivity
  end.

(** An event whose amount reads back from its JSON text is decoded from
    its encoding as it was. *)
Lemma round_trip_when_read_back (e : Event) :
  reads_back (event_amount e) ->
  (let* wire := Codec.encode (Codec.value_of e) in Codec.decode wire)
  = Ok (Codec.value_of e).
Proof.
  destruct e as [status name x|x|x]; cbn [event_amount]; intros Hx;
    pose proof (reads_number x Hx) as Hnum.
  - pose proof (parse_object_3 (js "status") _ (js "name") _ (js "amount") _ _ _ _
                  (reads_string (Codec.status_name status))
                  (reads_string name) Hnum) as Hparse.
    through_codec (Opened status name x) (js "Opened") Hparse.
  - pose proof (parse_object_1 (js "amount") _ _ Hnum) as Hparse.
    through_codec (Deposited x) (js "Deposited") Hparse.
  - pose proof (parse_object_1 (js "amount") _ _ Hnum) as Hparse.
    through_codec (Withdrawn x) (js "Withdrawn") Hparse.
Qed.

(** C4, amended. For every Opened, Deposited or Withdrawn event whose
    amount is a finite number other than -0, decoding the encoded event
    gives the event back. *)
Theorem codec_round_trip (e : Event) :
  is_number (event_amount e) = true ->
  is_finite (event_amount e) = true ->
  event_amount e <> negative_zero ->
  (let* wire := Codec.encode (Codec.value_of e) in Codec.decode wire)
  = Ok (Codec.value_of e).
Proof.
  intros Hnumber Hfinite Hzero.
  apply round_trip_when_read_back.
  now apply ReadsBack.number_reads_back.
Qed.

Lemma codec_round_trip_witness :
  (let* wire := Codec.encode (Codec.value_of (Deposited (num_of_Z 100))) in
   Codec.decode wire)
  = Ok (Codec.value_of (Deposited (num_of_Z 100))).
Proof.
  apply (codec_round_trip (Deposited (num_of_Z 100))).
  - reflexivity.
  - reflexivity.
  - discriminate.
Defined.

End CodecRoundTrip.

(* ------------------------------------------------------------------ *)
(** ** The codec: what a payload keeps of an amount *)

Module CodecImage.
Import JSON JSONFacts JSONContext RoundTrip.

Lemma reads_null : reads (js "null") JNull.
Proof.
  intros fuel d tail Hd. exists (d :: tail).
  apply delimiter_cases in Hd as [->| ->]; split; reflexivity.
Qed.

(** The text written for a number is read as what is stored of it. *)
Lemma reads_stored_amount (x : number) :
  is_number x = true -> reads (number_text x) (stored_amount x).
Proof.
  intros Hx. destruct x as [s|s| |s m e].
  - apply (reads_number (S754_zero false)).
    apply ReadsBack.number_reads_back; [reflexivity|reflexivity|discriminate].
  - apply reads_null.
  - apply reads_null.
  - apply (reads_number (S754_finite s m e)).
    apply ReadsBack.number_reads_back; [exact Hx|reflexivity|discriminate].
Qed.

Ltac decode_encoded event tag Hparse :=
  match type of Hparse with
  | JSON.parse (JString ?text) = _ =>
      change (Codec.encode (Codec.value_of event))
        with (Ok (Codec.transport tag (Some text)));
      cbn [bind]; unfold Codec.decode, Codec.transport;
      change (get (JObject [(js "type", JString tag); (js "data", JString text)])
                (js "data"))
        with (Ok (JString text));
      cbn [bind];
      change (or_else (JString text) (JString (js "{}"))) with (JString text);
      rewrite Hparse; reflexivity
  end.

(** An event is decoded from its encoding with the amount that is read from
    the text of its amount. *)
Lemma decode_encoded_amount (e : Event) (v : jsval) :
  reads (number_text (event_amount e)) v ->
  (let* wire := Codec.encode (Codec.value_of e) in Codec.decode wire)
  = Ok (with_amount e v).
Proof.
  destruct e as [status name x|x|x]; cbn [event_amount]; intros Hnum.
  - pose proof (parse_object_3 (js "status") _ (js "name") _ (js "amount") _ _ _ _
                  (reads_string (Codec.status_name status))
                  (reads_string name) Hnum) as Hparse.
    decode_encoded (Opened status name x) (js "Opened") Hparse.
  - pose proof (parse_object_1 (js "amount") _ _ Hnum) as Hparse.
    decode_encoded (Deposited x) (js "Deposited") Hparse.
  - pose proof (parse_object_1 (js "amount") _ _ Hnum) as Hparse.
    decode_encoded (Withdrawn x) (js "Withdrawn") Hparse.
Qed.

End CodecImage.

(** X4. For every Opened, Deposited or Withdrawn event whose amount is a
    binary64 number, finite or not, decoding the encoded event gives the
    event with its type, status and name as they were and with the amount
    the payload text keeps: [null] in the place of NaN, Infinity and
    -Infinity, 0 in the place of 0 and -0, and the number itself
    otherwise. *)
Theorem codec_stored_amount (e : Event) :
  is_number (event_amount e) = true ->
  (let* wire := Codec.encode (Codec.value_of e) in Codec.decode wire)
  = Ok (with_amount e (stored_amount (event_amount e))).
Proof.
  intros Hx. apply CodecImage.decode_encoded_amount.
  now apply CodecImage.reads_stored_amount.
Qed.

Lemma codec_stored_amount_witness :
  (let* wire := Codec.encode (Codec.value_of (Withdrawn NaN)) in Codec.decode wire)
  = Ok (JObject [(js "type", JString (js "Withdrawn"));
                 (js "data", JObject [(js "amount", JNull)])]).
Proof. apply (codec_stored_amount (Withdrawn NaN)). reflexivity. Defined.

(* ------------------------------------------------------------------ *)
(** ** The codec: every payload of a recognized type, every event encoded *)

Module CodecEdges.
Import JSON JSONContext.
Local Open Scope N_scope.

Lemma read_value_defined (fuel : nat) (s : jstring) (v : jsval) (r : jstring) :
  read_value fuel s = Some (v, r) -> v <> JUndefined.
Proof.
  destruct fuel as [|fuel]; [discriminate|]. cbn [read_value].
  destruct (skip_ws s) as [|c rest]; [discriminate|].
  destruct (c =? ch "{").
  { destruct (skip_ws rest) as [|d rest']; [discriminate|].
    destruct (d =? ch "}"); [intros [= <- _]; discriminate|].
    intros H. apply read_members_object in H as [props ->]. discriminate. }
  destruct (c =? ch "[").
  { destruct (skip_ws rest) as [|d rest']; [discriminate|].
    destruct (d =? ch "]"); [intros [= <- _]; discriminate|].
    intros H. apply read_elements_array in H as [items ->]. discriminate. }
  destruct (c =? dquote).
  { destruct (read_string rest) as [[str r']|]; [|discriminate].
    intros [= <- _]; discriminate. }
  destruct (c =? ch "t").
  { destruct (starts_with (js "rue") rest); [|discriminate].
    intros [= <- _]; discriminate. }
  destruct (c =? ch "f").
  { destruct (starts_with (js "alse") rest); [|discriminate].
    intros [= <- _]; discriminate. }
  destruct (c =? ch "n").
  { destruct (starts_with (js "ull") rest); [|discriminate].
    intros [= <- _]; discriminate. }
  destruct (span is_number_char (c :: rest)) as [token r'].
  destruct (read_number token); [|discriminate].
  intros [= <- _]; discriminate.
Qed.

(** [JSON.parse] never returns [undefined]. *)
Lemma parse_defined (v parsed : jsval) :
  JSON.parse v = Ok parsed -> parsed <> JUndefined.
Proof.
  unfold JSON.parse.
  destruct (to_string v) as [text|err]; [cbn [bind]|discriminate].
  destruct (read_value _ _) as [[x rest]|] eqn:Hread; [|discriminate].
  destruct (skip_ws rest); [|discriminate].
  intros [= <-]. exact (read_value_defined _ _ _ _ Hread).
Qed.

(** Reading a property of a value that is neither [undefined] nor [null]
    does not throw. *)
Lemma get_defined (v : jsval) (k : jstring) :
  v <> JUndefined -> v <> JNull -> exists x, get v k = Ok x.
Proof.
  intros Hu Hn. destruct v; try (now elim Hu); try (now elim Hn);
    try (eexists; reflexivity).
  simpl. destruct (lookup k props); eexists; reflexivity.
Qed.

Lemma format_digits_nonempty (s n : Z) : format_digits s n <> [].
Proof.
  unfold format_digits.
  pose proof (NumberText.digits_nonempty (Z.to_N s)) as Hds.
  destruct (digits (Z.to_N s)) as [|d ds]; [now elim Hds|].
  set (k := Z.of_nat (List.length (d :: ds))).
  destruct ((k <=? n)%Z && (n <=? 21)%Z); [discriminate|].
  destruct ((0 <? n)%Z && (n <=? 21)%Z).
  { intros H. apply (f_equal (@List.length _)) in H.
    rewrite !length_app in H. simpl in H. lia. }
  destruct ((-6 <? n)%Z && (n <=? 0)%Z); [discriminate|].
  destruct (k =? 1)%Z; discriminate.
Qed.

Lemma number_text_nonempty (x : number) : number_text x <> [].
Proof.
  unfold number_text. destruct x as [s|s| |[|] m e]; try discriminate.
  simpl. unfold positive_toString.
  destruct (exact_decimal m e) as [W E].
  destruct (shortest _ _ _ _ _ _) as [s n]. apply format_digits_nonempty.
Qed.

(** The text [JSON.stringify] writes is never empty. *)
Lemma serialize_nonempty (v : jsval) (text : jstring) :
  serialize v = Some text -> text <> [].
Proof.
  destruct v as [| |[|]|x|s|items|props]; simpl; try discriminate;
    intros [= <-]; try discriminate.
  apply number_text_nonempty.
Qed.

End CodecEdges.

(** X5. For an event whose type is Opened, Deposited or Withdrawn, [decode]
    depends on the payload alone.  A payload text that [JSON.parse] rejects
    makes it throw what [JSON.parse] throws; the payload [null] makes it
    throw a TypeError; every other payload, an object or not, gives an
    event of that type whose fields are what reading [status], [name] and
    [amount] from the parsed payload gives ([undefined] for a field the
    payload does not have), and nothing else of the payload: only the
    amount for Deposited and Withdrawn. *)
Theorem decode_recognized_type (event : jsval) (type : jstring) (data : jsval) :
  get event (js "type") = Ok (JString type) ->
  get event (js "data") = Ok data ->
  In type [js "Opened"; js "Deposited"; js "Withdrawn"] ->
  (forall e, JSON.parse (or_else data (JString (js "{}"))) = Throw e ->
     Codec.decode event = Throw e)
  /\ (JSON.parse (or_else data (JString (js "{}"))) = Ok JNull ->
      Codec.decode event = Throw TypeError)
  /\ (forall parsed,
        JSON.parse (or_else data (JString (js "{}"))) = Ok parsed ->
        parsed <> JNull ->
        exists status name amount,
          get parsed (js "status") = Ok status
          /\ get parsed (js "name") = Ok name
          /\ get parsed (js "amount") = Ok amount
          /\ Codec.decode event
             = Ok (JObject [(js "type", JString type);
                            (js "data",
                             JObject (if str_eqb type (js "Opened")
                                      then [(js "status", status);
                                            (js "name", name);
                                            (js "amount", amount)]
                                      else [(js "amount", amount)]))])).
Proof.
  intros Htype Hdata Hin. unfold Codec.decode. rewrite Hdata, Htype. cbn [bind].
  split; [|split].
  - intros e ->. reflexivity.
  - intros ->. cbn [bind].
    destruct Hin as [<-|[<-|[<-|[]]]]; reflexivity.
  - intros parsed Hparse Hnull. rewrite Hparse. cbn [bind].
    pose proof (CodecEdges.parse_defined _ _ Hparse) as Hundef.
    destruct (CodecEdges.get_defined parsed (js "status") Hundef Hnull) as [s Hs].
    destruct (CodecEdges.get_defined parsed (js "name") Hundef Hnull) as [n Hn].
    destruct (CodecEdges.get_defined parsed (js "amount") Hundef Hnull) as [a Ha].
    exists s, n, a. split; [exact Hs|]. split; [exact Hn|]. split; [exact Ha|].
    rewrite Hs, Hn, Ha.
    destruct Hin as [<-|[<-|[<-|[]]]]; reflexivity.
Qed.

Lemma decode_recognized_type_witness :
  Codec.decode (Codec.transport (js "Deposited") (Some (js "null")))
  = Throw TypeError
  /\ exists status name amount,
       Codec.decode (Codec.transport (js "Deposited") (Some (js "{ }")))
       = Ok (JObject [(js "type", JString (js "Deposited"));
                      (js "data", JObject [(js "amount", amount)])])
       /\ get (JObject []) (js "status") = Ok status
       /\ get (JObject []) (js "name") = Ok name.
Proof.
  split.
  - refine (proj1 (proj2 (decode_recognized_type
                            (Codec.transport (js "Deposited") (Some (js "null")))
                            (js "Deposited") (JString (js "null"))
                            eq_refl eq_refl _)) eq_refl).
    simpl; auto.
  - destruct (proj2 (proj2 (decode_recognized_type
                              (Codec.transport (js "Deposited") (Some (js "{ }")))
                              (js "Deposited") (JString (js "{ }"))
                              eq_refl eq_refl (or_intror (or_introl eq_refl))))
                (JObject []) eq_refl)
      as (status & name & amount & Hs & Hn & Ha & Hdec).
    + discriminate.
    + exists status, name, amount. split; [exact Hdec|]. split; [exact Hs|exact Hn].
Defined.

(** X6. What [encode] returns for an event object follows what
    [JSON.stringify] gives for its payload.  When the event has a [data]
    property and [JSON.stringify(event.data)] is [undefined], the record
    holds [type] and a [data] that is [undefined]; when it is a text, the
    record holds [type] and that text, the text is never empty, and
    [decode] reads it as it is, never replacing it by the text of the
    empty object.  In both cases the record has exactly the two properties
    [type] and [data], whatever else the event holds, and [type] is what
    [event.type] reads.  Nothing is said of a payload on which
    [JSON.stringify] throws (a BigInt, an object that contains itself):
    the values here are plain data.  For an array [encode] returns both
    properties [undefined]; for [undefined], [null], a boolean, a number
    and a string it throws a TypeError. *)
Theorem encode_of_plain_data :
  (forall (props : list (jstring * jsval)) (payload : jsval),
     lookup (js "data") props = Some payload ->
     exists type,
       get (JObject props) (js "type") = Ok type
       /\ (JSON.stringify payload = JUndefined ->
           Codec.encode (JObject props)
           = Ok (JObject [(js "type", type); (js "data", JUndefined)]))
       /\ (forall text,
             JSON.stringify payload = JString text ->
             text <> []
             /\ or_else (JString text) (JString (js "{}")) = JString text
             /\ Codec.encode (JObject props)
                = Ok (JObject [(js "type", type); (js "data", JString text)])))
  /\ (forall items,
        Codec.encode (JArray items)
        = Ok (JObject [(js "type", JUndefined); (js "data", JUndefined)]))
  /\ Codec.encode JUndefined = Throw TypeError
  /\ Codec.encode JNull = Throw TypeError
  /\ (forall b, Codec.encode (JBool b) = Throw TypeError)
  /\ (forall x, Codec.encode (JNumber x) = Throw TypeError)
  /\ (forall s, Codec.encode (JString s) = Throw TypeError).
Proof.
  split; [|repeat split].
  intros props payload Hpayload.
  exists (match lookup (js "type") props with Some x => x | None => JUndefined end).
  assert (Hencode : Codec.encode (JObject props)
                    = Ok (JObject [(js "type",
                                    match lookup (js "type") props with
                                    | Some x => x
                                    | None => JUndefined
                                    end);
                                   (js "data", JSON.stringify payload)])).
  { unfold Codec.encode, get, has_property. rewrite Hpayload. cbn [bind].
    now destruct (lookup (js "type") props). }
  split; [unfold get; now destruct (lookup (js "type") props)|].
  split.
  - intros Hnone. now rewrite Hencode, Hnone.
  - intros text Htext. rewrite Hencode, Htext.
    assert (Hne : text <> []).
    { unfold JSON.stringify in Htext.
      destruct (JSON.serialize payload) as [written|] eqn:Hwritten;
        [|discriminate].
      injection Htext as <-. exact (CodecEdges.serialize_nonempty _ _ Hwritten). }
    split; [exact Hne|]. split; [|reflexivity].
    destruct text; [now elim Hne|reflexivity].
Qed.

Lemma encode_of_plain_data_witness :
  exists type text,
    Codec.encode (Codec.value_of (Deposited (num_of_Z 100)))
    = Ok (JObject [(js "type", type); (js "data", JString text)])
    /\ text <> [].
Proof.
  destruct (proj1 encode_of_plain_data
              [(js "type", JString (js "Deposited"));
               (js "data", JObject [(js "amount", JNumber (num_of_Z 100))])]
              (JObject [(js "amount", JNumber (num_of_Z 100))]) eq_refl)
    as (type & _ & _ & Htext).
  destruct (Htext _ eq_refl) as (Hne & _ & Hencode).
  eexists type, _. split; [exact Hencode|exact Hne].
Defined.

(* ------------------------------------------------------------------ *)
(** ** Decisions: a withdrawal leaves no debt *)

Module Order.
Import Exact.

(** The mantissa [m] brought from the exponent [e] down to [e']. *)
Lemma shl_align_value (m : positive) (e e' : Z) :
  e' <= e -> Zpos (fst (shl_align m e e')) = Zpos m * 2 ^ (e - e').
Proof.
  intros Hle. unfold shl_align.
  destruct (e' - e) as [|d|d] eqn:Hd; try lia.
  - replace (e - e') with 0 by lia. simpl. lia.
  - cbn [fst]. change (Pos.iter xO m d) with (shift_pos d m).
    rewrite shift_pos_correct, Z.pow_pos_fold.
    replace (e - e') with (Zpos d) by lia. lia.
Qed.

(** Of two binary64 numbers, the one at the lower exponent is the smaller
    in magnitude. *)
Lemma canonical_order (mx my : positive) (ex ey : Z) :
  bounded prec emax mx ex = true -> bounded prec emax my ey = true ->
  ex < ey -> Zpos mx < Zpos my * 2 ^ (ey - ex).
Proof.
  unfold bounded, canonical_mantissa. intros Hx Hy Hlt.
  apply andb_prop in Hx as [Hx _]. apply andb_prop in Hy as [Hy _].
  apply Z.eqb_eq in Hx, Hy.
  pose proof (digits2_bounds mx) as [_ Hmx].
  pose proof (digits2_bounds my) as [Hmy _].
  unfold fexp, emin, prec, emax in Hx, Hy.
  assert (Hdx : Zpos (digits2_pos mx) <= 53) by lia.
  assert (Hdy : Zpos (digits2_pos my) = 53) by lia.
  rewrite Hdy in Hmy.
  assert (Hpx : 2 ^ Zpos (digits2_pos mx) <= 2 ^ 53)
    by (apply Z.pow_le_mono_r; lia).
  assert (Hpk : 2 ^ 1 <= 2 ^ (ey - ex)) by (apply Z.pow_le_mono_r; lia).
  change (2 ^ 1) with 2 in Hpk. change (2 ^ (53 - 1)) with 4503599627370496 in Hmy.
  change (2 ^ 53) with 9007199254740992 in Hpx. nia.
Qed.

(** A number that is not below another is at least as large once both
    mantissas are brought to the lower of the two exponents. *)
Lemma aligned_difference (sx sy : bool) (mx my : positive) (ex ey : Z) :
  bounded prec emax mx ex = true -> bounded prec emax my ey = true ->
  SFltb (S754_finite sx mx ex) (S754_finite sy my ey) = false ->
  0 <= cond_Zopp sx (Zpos (fst (shl_align mx ex (Z.min ex ey))))
       - cond_Zopp sy (Zpos (fst (shl_align my ey (Z.min ex ey)))).
Proof.
  intros Hx Hy Hlt.
  rewrite !shl_align_value by lia.
  unfold SFltb, SFcompare in Hlt.
  destruct (Z.compare_spec ex ey) as [Heq|Hl|Hg].
  - subst ey. rewrite Z.min_id, Z.sub_diag, Z.pow_0_r, !Z.mul_1_r.
    change (Pos.compare_cont Eq mx my) with (Pos.compare mx my) in Hlt.
    destruct (Pos.compare_spec mx my) as [Hm|Hm|Hm];
      destruct sx, sy; simpl in Hlt; try discriminate Hlt;
      unfold cond_Zopp; lia.
  - pose proof (canonical_order mx my ex ey Hx Hy Hl) as Hord.
    rewrite Z.min_l, Z.sub_diag, Z.pow_0_r, Z.mul_1_r by lia.
    assert (0 < Zpos my * 2 ^ (ey - ex)) by lia.
    destruct sx, sy; simpl in Hlt; try discriminate Hlt;
      unfold cond_Zopp; lia.
  - pose proof (canonical_order my mx ey ex Hy Hx Hg) as Hord.
    rewrite Z.min_r, Z.sub_diag, Z.pow_0_r, Z.mul_1_r by lia.
    assert (0 < Zpos mx * 2 ^ (ex - ey)) by lia.
    destruct sx, sy; simpl in Hlt; try discriminate Hlt;
      unfold cond_Zopp; lia.
Qed.

(** Rounding a positive value never gives a negative number. *)
Lemma binary_round_not_negative (m : positive) (e : Z) :
  SFltb (binary_round prec emax false m e) (S754_zero false) = false.
Proof.
  unfold binary_round. destruct (shl_align _ _ _) as [mz ez].
  unfold binary_round_aux.
  destruct (shr_fexp prec emax (Zpos mz) ez loc_Exact) as [mrs' e'].
  destruct (shr_fexp prec emax _ e' loc_Exact) as [mrs'' e''].
  destruct (shr_m mrs''); [reflexivity| |reflexivity].
  destruct (e'' <=? emax - prec); reflexivity.
Qed.

(** [a - b] is not below zero when [a] is not below [b]. *)
Lemma difference_not_negative (a b : number) :
  is_number a = true -> is_number b = true ->
  num_lt a b = false -> num_lt (num_sub a b) (num_of_Z 0) = false.
Proof.
  unfold is_number, num_lt, num_sub. change (num_of_Z 0) with (S754_zero false).
  intros Ha Hb Hlt.
  destruct a as [sa|sa| |sa ma ea], b as [sb|sb| |sb mb eb];
    try reflexivity; try (destruct sa, sb; (reflexivity || discriminate Hlt));
    try (destruct sa; (reflexivity || discriminate Hlt));
    try (destruct sb; (reflexivity || discriminate Hlt)).
  cbn [valid_binary] in Ha, Hb.
  pose proof (aligned_difference sa sb ma mb ea eb Ha Hb Hlt) as Hdiff.
  cbn [SFsub]. cbv zeta.
  destruct (cond_Zopp sa _ - cond_Zopp sb _) as [|d|d]; try lia.
  - reflexivity.
  - apply binary_round_not_negative.
Qed.

End Order.

(** X7. A withdrawal that [withdraw] accepts never leaves a balance below
    zero: when the balance and the amount are binary64 numbers and
    [withdraw] returns events, they are the one Withdrawn event of the
    amount, and the balance of the state they fold to is not less than 0.
    This holds whatever the balance was, negative included, since the
    decision requires the balance not to be less than the amount. *)
Theorem withdraw_leaves_no_debt (amount : number) (state : Fold.State)
  (events : list Event) :
  is_number (Fold.amount state) = true -> is_number amount = true ->
  Decide.withdraw amount state = Ok events ->
  events = [Withdrawn amount]
  /\ num_lt (Fold.amount (Fold.fold state events)) (num_of_Z 0) = false.
Proof.
  intros Hstate Hamount. unfold Decide.withdraw.
  destruct (negb _); [discriminate|].
  destruct (num_lt (Fold.amount state) amount) eqn:Hlt; [discriminate|].
  intros [= <-]. split; [reflexivity|].
  cbn [Fold.fold fold_left Fold.evolve Fold.amount].
  now apply Order.difference_not_negative.
Qed.

Lemma withdraw_leaves_no_debt_witness :
  num_lt (Fold.amount (Fold.fold (Fold.mkState Open (js "Alice") (num_of_Z 400))
                         [Withdrawn (num_of_Z 50)]))
         (num_of_Z 0) = false.
Proof.
  exact (proj2 (withdraw_leaves_no_debt (num_of_Z 50)
                  (Fold.mkState Open (js "Alice") (num_of_Z 400))
                  [Withdrawn (num_of_Z 50)] eq_refl eq_refl eq_refl)).
Defined.

(* ------------------------------------------------------------------ *)
(** ** Fold: what each field of the state depends on *)

Module FoldFacts.

Lemma fold_cons (s : Fold.State) (e : Event) (events : list Event) :
  Fold.fold s (e :: events) = Fold.fold (Fold.evolve s e) events.
Proof. reflexivity. Qed.

Lemma fold_status (events : list Event) :
  forall s, Fold.status (Fold.fold s events)
            = if existsb is_opened events then Open else Fold.status s.
Proof.
  induction events as [|e events IH]; intros s; [reflexivity|].
  rewrite fold_cons, IH. cbn [existsb].
  destruct e; cbn [is_opened orb]; try reflexivity.
  now destruct (existsb is_opened events).
Qed.

Lemma fold_name (events : list Event) :
  forall s, Fold.name (Fold.fold s events) = last_opened_name events (Fold.name s).
Proof.
  induction events as [|e events IH]; intros s; [reflexivity|].
  rewrite fold_cons, IH. now destruct e.
Qed.

Lemma fold_amount (events : list Event) :
  forall s t,
    Fold.amount s = Fold.amount t ->
    Fold.amount (Fold.fold s events)
    = Fold.amount (Fold.fold t (filter (fun e => negb (is_opened e)) events)).
Proof.
  induction events as [|e events IH]; intros s t Hst; [exact Hst|].
  rewrite fold_cons. destruct e; cbn [filter is_opened negb].
  - apply IH. exact Hst.
  - rewrite fold_cons. apply IH. cbn. now rewrite Hst.
  - rewrite fold_cons. apply IH. cbn. now rewrite Hst.
Qed.

End FoldFacts.

(** X8. The state a list of events folds to, field by field.  The status
    is Open when the list holds an Opened event and the status of the
    starting state otherwise; the name is the name of the last Opened
    event, or the starting name when there is none; the amount is the one
    the Deposited and Withdrawn events alone give, so that an Opened event
    changes no balance wherever it stands.  No list of events folds from
    the initial state to the status Closed. *)
Theorem fold_fields (state : Fold.State) (events : list Event) :
  Fold.status (Fold.fold state events)
  = (if existsb is_opened events then Open else Fold.status state)
  /\ Fold.name (Fold.fold state events) = last_opened_name events (Fold.name state)
  /\ Fold.amount (Fold.fold state events)
     = Fold.amount (Fold.fold state (filter (fun e => negb (is_opened e)) events))
  /\ Fold.status (Fold.fold Fold.initial events) <> Closed.
Proof.
  split; [apply FoldFacts.fold_status|].
  split; [apply FoldFacts.fold_name|].
  split; [now apply FoldFacts.fold_amount|].
  rewrite FoldFacts.fold_status. now destruct (existsb is_opened events).
Qed.

(* ------------------------------------------------------------------ *)
(** ** The fold on run-time values *)

Lemma bind_assoc {A B C : Type} (r : result A) (f : A -> result B) (g : B -> result C) :
  (let* a := r in let* b := f a in g b) = (let* b := (let* a := r in f a) in g b).
Proof. now destruct r. Qed.

Module RunTimeFacts.

Lemma evolve_typed (s : Fold.State) (e : Event) :
  RunTime.Fold.evolve (state_value s) (Codec.value_of e)
  = Ok (state_value (Fold.evolve s e)).
Proof. destruct s, e; reflexivity. Qed.

Lemma evolve_default_typed (s : Fold.State) (e : Event) :
  RunTime.evolve (state_value s) (Codec.value_of e)
  = Ok (state_value (Fold.evolve s e)).
Proof. destruct s, e; reflexivity. Qed.

Lemma evolve_stored (s : Fold.State) (e : Event) :
  RunTime.Fold.evolve (state_value s) (with_amount e (stored_amount (event_amount e)))
  = Ok (state_value (Fold.evolve s (replayed e))).
Proof. destruct s, e as [st n x|x|x]; destruct x; reflexivity. Qed.

Lemma evolve_default_stored (s : Fold.State) (e : Event) :
  RunTime.evolve (state_value s) (with_amount e (stored_amount (event_amount e)))
  = Ok (state_value (Fold.evolve s (replayed e))).
Proof. destruct s, e as [st n x|x|x]; destruct x; reflexivity. Qed.

Lemma num_add_zero (a : number) :
  a <> negative_zero -> num_add a (num_of_Z 0) = a.
Proof.
  intros Ha. destruct a as [[|]| | |]; try reflexivity. now elim Ha.
Qed.

Lemma num_sub_zero (a : number) : num_sub a (num_of_Z 0) = a.
Proof. destruct a as [[|]|[|]| |]; reflexivity. Qed.

Lemma num_add_nan (a : number) : num_add a NaN = NaN.
Proof. now destruct a. Qed.

Lemma num_sub_nan (a : number) : num_sub a NaN = NaN.
Proof. now destruct a. Qed.

Lemma reduce_app (f : jsval -> jsval -> result jsval) (a b : list jsval) :
  forall state,
    RunTime.reduce f (a ++ b) state
    = let* middle := RunTime.reduce f a state in RunTime.reduce f b middle.
Proof.
  induction a as [|x a IH]; intros state; [reflexivity|].
  cbn [app RunTime.reduce]. destruct (f state x) as [next|e]; [|reflexivity].
  cbn [bind]. apply IH.
Qed.

End RunTimeFacts.

(** X9. On the run-time values of a typed state and of typed events, both
    copies of [fold] return the run-time value of the state the typed fold
    gives: the three properties [status], [name] and [amount] in that
    order, and no exception. *)
Theorem fold_of_typed_values (s : Fold.State) (events : list Event) :
  RunTime.Fold.fold (state_value s) (List.map Codec.value_of events)
  = Ok (state_value (Fold.fold s events))
  /\ RunTime.fold (state_value s) (List.map Codec.value_of events)
     = Ok (state_value (Fold.fold s events)).
Proof.
  unfold RunTime.Fold.fold, RunTime.fold, Fold.fold.
  revert s. induction events as [|e events IH]; intros s; [split; reflexivity|].
  cbn [List.map RunTime.reduce fold_left].
  rewrite RunTimeFacts.evolve_typed, RunTimeFacts.evolve_default_typed. cbn [bind].
  apply IH.
Qed.

(** X10. An event that went through the codec is applied with the amount
    the payload kept.  For a typed state and an event whose amount is a
    binary64 number, [evolve] (either copy) on the decoded encoding gives
    the state the typed [evolve] gives for the event with 0 in the place
    of an amount that is NaN, infinite or a zero.  So a Deposited or
    Withdrawn event of NaN or of an infinity, which [deposit] and
    [withdraw] can decide, changes nothing once it is read back, on a
    balance other than -0. *)
Theorem replay_of_stored_event (s : Fold.State) (e : Event) :
  is_number (event_amount e) = true ->
  (let* wire := Codec.encode (Codec.value_of e) in
   let* event := Codec.decode wire in
   RunTime.Fold.evolve (state_value s) event)
  = Ok (state_value (Fold.evolve s (replayed e)))
  /\ (let* wire := Codec.encode (Codec.value_of e) in
      let* event := Codec.decode wire in
      RunTime.evolve (state_value s) event)
     = Ok (state_value (Fold.evolve s (replayed e)))
  /\ (is_finite (event_amount e) = false ->
      Fold.amount s <> negative_zero ->
      Fold.evolve s (replayed e) = match e with
                                   | Opened _ name _ =>
                                       Fold.mkState Open name (Fold.amount s)
                                   | _ => s
                                   end).
Proof.
  intros Hx.
  pose proof (CodecImage.decode_encoded_amount e _ (CodecImage.reads_stored_amount _ Hx)) as Hcodec.
  rewrite !bind_assoc, Hcodec. cbn [bind].
  split; [apply RunTimeFacts.evolve_stored|].
  split; [apply RunTimeFacts.evolve_default_stored|].
  intros Hinf Hzero.
  destruct s as [st n a]; cbn [Fold.amount] in Hzero.
  destruct e as [st' n' x|x|x]; cbn [event_amount] in Hinf;
    destruct x; try discriminate Hinf; cbn [replayed event_amount Fold.evolve];
    cbn [Fold.status Fold.name Fold.amount];
    rewrite ?(RunTimeFacts.num_add_zero a Hzero), ?RunTimeFacts.num_sub_zero;
    reflexivity.
Qed.

Lemma replay_of_stored_event_witness :
  (let* wire := Codec.encode (Codec.value_of (Deposited Infinity)) in
   let* event := Codec.decode wire in
   RunTime.Fold.evolve
     (state_value (Fold.mkState Open (js "Alice") (num_of_Z 100))) event)
  = Ok (state_value (Fold.mkState Open (js "Alice") (num_of_Z 100))).
Proof.
  exact (proj1 (replay_of_stored_event
                  (Fold.mkState Open (js "Alice") (num_of_Z 100))
                  (Deposited Infinity) eq_refl)).
Defined.

(** X11. A Deposited or Withdrawn event stored without a payload (no
    [data], or the empty text) turns the balance into NaN when it is
    decoded and applied, whatever the balance was; status and name stay.
    With the balance NaN, [withdraw] on an open account accepts every
    amount: [state.amount < amount] is false. *)
Theorem evolve_missing_amount (s : Fold.State) (event : jsval) (type : jstring) :
  get event (js "type") = Ok (JString type) ->
  In type [js "Deposited"; js "Withdrawn"] ->
  get event (js "data") = Ok JUndefined
  \/ get event (js "data") = Ok (JString (js "")) ->
  (let* decoded := Codec.decode event in
   RunTime.Fold.evolve (state_value s) decoded)
  = Ok (state_value (Fold.mkState (Fold.status s) (Fold.name s) NaN))
  /\ (let* decoded := Codec.decode event in
      RunTime.evolve (state_value s) decoded)
     = Ok (state_value (Fold.mkState (Fold.status s) (Fold.name s) NaN))
  /\ forall amount name,
       Decide.withdraw amount (Fold.mkState Open name NaN) = Ok [Withdrawn amount].
Proof.
  intros Htype Hin Hdata.
  assert (Hdecode : Codec.decode event
                    = Ok (JObject [(js "type", JString type);
                                   (js "data", JObject [(js "amount", JUndefined)])])).
  { destruct Hdata as [Hdata|Hdata];
      rewrite (decode_reads _ _ _ Hdata Htype);
      destruct Hin as [<-|[<-|[]]]; reflexivity. }
  rewrite Hdecode. cbn [bind].
  split; [|split].
  - destruct s as [st n a], Hin as [<-|[<-|[]]].
    + change (RunTime.Fold.evolve _ _)
        with (Ok (state_value (Fold.mkState st n (num_add a NaN)))).
      now rewrite RunTimeFacts.num_add_nan.
    + change (RunTime.Fold.evolve _ _)
        with (Ok (state_value (Fold.mkState st n (num_sub a NaN)))).
      now rewrite RunTimeFacts.num_sub_nan.
  - destruct s as [st n a], Hin as [<-|[<-|[]]].
    + change (RunTime.evolve _ _)
        with (Ok (state_value (Fold.mkState st n (num_add a NaN)))).
      now rewrite RunTimeFacts.num_add_nan.
    + change (RunTime.evolve _ _)
        with (Ok (state_value (Fold.mkState st n (num_sub a NaN)))).
      now rewrite RunTimeFacts.num_sub_nan.
  - intros amount name. unfold Decide.withdraw. cbn [Fold.status Fold.amount].
    now destruct amount.
Qed.

Lemma evolve_missing_amount_witness :
  (let* decoded := Codec.decode (Codec.transport (js "Deposited") None) in
   RunTime.Fold.evolve
     (state_value (Fold.mkState Open (js "Alice") (num_of_Z 100))) decoded)
  = Ok (state_value (Fold.mkState Open (js "Alice") NaN)).
Proof.
  refine (proj1 (evolve_missing_amount
                   (Fold.mkState Open (js "Alice") (num_of_Z 100))
                   (Codec.transport (js "Deposited") None) (js "Deposited")
                   eq_refl _ _)).
  - simpl; auto.
  - left; reflexivity.
Defined.

(** X12. A Deposited event whose payload holds a text as its amount is
    decoded without complaint and applied by [+] as a concatenation: the
    new [amount] is the text of the balance followed by the payload's
    text, a string.  A Withdrawn event with such a payload subtracts the
    number the text converts to. *)
Theorem evolve_text_amount (s : Fold.State) (text : jstring) :
  let stored (type : jstring) :=
    JObject [(js "type", JString type);
             (js "data", JSON.stringify (JObject [(js "amount", JString text)]))] in
  (let* decoded := Codec.decode (stored (js "Deposited")) in
   RunTime.Fold.evolve (state_value s) decoded)
  = Ok (JObject [(js "status", JString (Codec.status_name (Fold.status s)));
                 (js "name", JString (Fold.name s));
                 (js "amount",
                  JString (Number_toString (Fold.amount s) ++ text))])
  /\ (let* decoded := Codec.decode (stored (js "Withdrawn")) in
      RunTime.Fold.evolve (state_value s) decoded)
     = Ok (state_value
             (Fold.mkState (Fold.status s) (Fold.name s)
                (num_sub (Fold.amount s) (RunTime.StringToNumber text)))).
Proof.
  intros stored.
  pose proof (RoundTrip.parse_object_1 (js "amount") _ _ (JSONContext.reads_string text))
    as Hparse.
  assert (Hdecode : forall type,
             In type [js "Deposited"; js "Withdrawn"] ->
             Codec.decode (stored type)
             = Ok (JObject [(js "type", JString type);
                            (js "data", JObject [(js "amount", JString text)])])).
  { intros type Hin. unfold Codec.decode, stored.
    match type of Hparse with
    | JSON.parse (JString ?payload) = _ =>
        change (JSON.stringify (JObject [(js "amount", JString text)]))
          with (JString payload);
        change (get _ (js "data")) with (Ok (JString payload)); cbn [bind];
        change (or_else (JString payload) (JString (js "{}"))) with (JString payload)
    end.
    rewrite Hparse. destruct Hin as [<-|[<-|[]]]; reflexivity. }
  rewrite !Hdecode by (simpl; auto). cbn [bind].
  destruct s as [st n a]. split; reflexivity.
Qed.

(** X13. The two copies of [evolve] agree on every event whose type has a
    case in the [switch].  On any other type the first copy returns the
    state it was given, so that its [fold] skips the event wherever it
    stands; the second copy returns [undefined], and its [fold] over that
    event and a following typed event throws a TypeError for Deposited and
    Withdrawn and gives a state without an [amount] for Opened. *)
Theorem evolve_without_case (state event type : jsval) :
  get event (js "type") = Ok type ->
  (has_case type = true ->
   RunTime.evolve state event = RunTime.Fold.evolve state event)
  /\ (has_case type = false ->
      RunTime.evolve state event = Ok state
      /\ RunTime.Fold.evolve state event = Ok JUndefined
      /\ (forall before after,
            RunTime.fold state (before ++ event :: after)
            = RunTime.fold state (before ++ after))
      /\ forall e,
           RunTime.Fold.fold state (event :: Codec.value_of e :: [])
           = match e with
             | Opened _ name _ =>
                 Ok (JObject [(js "status", JString (js "Open"));
                              (js "name", JString name)])
             | _ => Throw TypeError
             end).
Proof.
  intros Htype. unfold has_case.
  assert (Hdefault : (is_string type (js "Opened") || is_string type (js "Deposited")
                      || is_string type (js "Withdrawn")) = false ->
                     forall st, RunTime.evolve st event = Ok st
                                /\ RunTime.Fold.evolve st event = Ok JUndefined).
  { intros H st. apply orb_false_elim in H as [H H3].
    apply orb_false_elim in H as [H1 H2].
    unfold RunTime.evolve, RunTime.Fold.evolve.
    rewrite Htype. cbn [bind]. rewrite H1, H2, H3. split; reflexivity. }
  split.
  - intros H. unfold RunTime.evolve, RunTime.Fold.evolve.
    rewrite Htype. cbn [bind].
    destruct (is_string type (js "Opened")); [reflexivity|].
    destruct (is_string type (js "Deposited")); [reflexivity|].
    destruct (is_string type (js "Withdrawn")); [reflexivity|discriminate H].
  - intros H. split; [apply (Hdefault H)|]. split; [apply (Hdefault H)|]. split.
    + intros before after. unfold RunTime.fold.
      rewrite !RunTimeFacts.reduce_app.
      destruct (RunTime.reduce RunTime.evolve before state) as [middle|err];
        [|reflexivity].
      cbn [bind RunTime.reduce]. now rewrite (proj1 (Hdefault H middle)).
    + intros e. unfold RunTime.Fold.fold. cbn [RunTime.reduce].
      rewrite (proj2 (Hdefault H state)). cbn [bind].
      destruct e; reflexivity.
Qed.

Lemma evolve_without_case_witness :
  RunTime.evolve (state_value Fold.initial)
    (JObject [(js "type", JString (js "Closed"))])
  = Ok (state_value Fold.initial)
  /\ RunTime.Fold.evolve (state_value Fold.initial)
       (JObject [(js "type", JString (js "Closed"))])
     = Ok JUndefined.
Proof.
  destruct (proj2 (evolve_without_case (state_value Fold.initial)
                     (JObject [(js "type", JString (js "Closed"))])
                     (JString (js "Closed")) eq_refl) eq_refl)
    as (Hfirst & Hsecond & _).
  split; [exact Hfirst|exact Hsecond].
Defined.

(* ------------------------------------------------------------------ *)
(** ** The store under the adapter and the service *)

Module StoreFacts.

(** A transaction whose decision gives one event. *)
Lemma transact_one {E S : Type} (d : Decider E S)
  (decide : S -> result (list E)) (w : World E) (e : E) :
  decide (fst (load d w)) = Ok [e] ->
  transact d decide w
  = (Ok tt,
     mkWorld (append_events w (decider_stream d) [e])
             (calls w ++ [Transaction (decider_stream d) (Ok [e]);
                          Append (decider_stream d)
                            (version_of w (decider_stream d)) [e]])).
Proof. unfold transact, load. cbn [fst]. now intros ->. Qed.

(** A transaction whose decision throws. *)
Lemma transact_throw {E S : Type} (d : Decider E S)
  (decide : S -> result (list E)) (w : World E) (err : exn) :
  decide (fst (load d w)) = Throw err ->
  transact d decide w
  = (Throw err,
     mkWorld (streams w) (calls w ++ [Transaction (decider_stream d) (Throw err)])).
Proof. unfold transact, load. cbn [fst]. now intros ->. Qed.

Lemma read_after_one (stream accountId : jstring) (w : World Event) (e : Event)
  (log : list (Call Event)) :
  Service.readBalance (Service.create stream) accountId
    (mkWorld (append_events w stream [e]) log)
  = Fold.evolve (Service.readBalance (Service.create stream) accountId w) e.
Proof.
  unfold Service.readBalance, query, load, events_of. cbn.
  unfold append_events. rewrite str_eqb_refl.
  change (fold_left Fold.evolve (streams w stream ++ [e]) Fold.initial)
    with (Fold.fold Fold.initial (streams w stream ++ [e])).
  now rewrite fold_app.
Qed.

(** An event with a lossless amount is read back as it was written. *)
Lemma read_back_typed (e : Event) :
  lossless (event_amount e) -> read_back (Codec.value_of e) = Ok (Codec.value_of e).
Proof.
  intros (Hnumber & Hfinite & Hzero). apply round_trip_when_read_back.
  now apply ReadsBack.number_reads_back.
Qed.

Lemma read_back_all_typed (events : list Event) :
  Forall (fun e => lossless (event_amount e)) events ->
  read_back_all (List.map Codec.value_of events) = Ok (List.map Codec.value_of events).
Proof.
  induction 1 as [|e events He _ IH]; [reflexivity|].
  cbn [List.map read_back_all]. rewrite (read_back_typed e He), IH. cbn [bind].
  now destruct e.
Qed.

Lemma fold_typed (events : list Event) :
  forall s,
    RunTime.Fold.fold (state_value s) (List.map Codec.value_of events)
    = Ok (state_value (Fold.fold s events)).
Proof.
  unfold RunTime.Fold.fold, Fold.fold.
  induction events as [|e events IH]; intros s; [reflexivity|].
  cbn [List.map RunTime.reduce fold_left].
  rewrite RunTimeFacts.evolve_typed. cbn [bind]. apply IH.
Qed.

End StoreFacts.

(** X15. When [AccountId.parse] throws on the stream name, or accepts it
    and [StreamId.create] throws, [appendToStream] throws the same error
    and leaves the store as it was: no transaction is started and nothing
    is appended. *)
Theorem appendToStream_rejected_name {E S : Type}
  (AccountId_parse StreamId_create : jstring -> result jstring)
  (category : Category E S) (streamName : jstring) (events : list E)
  (w : World E) (err : exn) :
  AccountId_parse streamName = Throw err
  \/ (exists accountId, AccountId_parse streamName = Ok accountId)
     /\ StreamId_create streamName = Throw err ->
  appendToStream AccountId_parse StreamId_create category streamName events w
  = (Throw err, w).
Proof.
  unfold appendToStream.
  intros [->|[[accountId ->] ->]]; reflexivity.
Qed.

Lemma appendToStream_rejected_name_witness :
  appendToStream reject accept Service.category (js "not an account")
    sample_batch (single_stream sample_stream [])
  = (Throw (Error (js "invalid identifier")), single_stream sample_stream []).
Proof.
  apply (appendToStream_rejected_name reject accept Service.category).
  left; reflexivity.
Defined.

(** X16. [readStream] does not read what [appendToStream] wrote: once the
    transaction of an [appendToStream] of at least one event under an
    accepted name has run, the stream holds the batch after what it held,
    and [readStream] of the same name still reports version 0 and no
    events, and leaves the store as it is. *)
Theorem readStream_after_append {E S : Type}
  (AccountId_parse StreamId_create : jstring -> result jstring)
  (category : Category E S) (streamName accountId streamId : jstring)
  (e : E) (events : list E) (w : World E) :
  AccountId_parse streamName = Ok accountId ->
  StreamId_create streamName = Ok streamId ->
  let w' := snd (appendToStream AccountId_parse StreamId_create category
                   streamName (e :: events) w) in
  events_of w' streamId = events_of w streamId ++ e :: events
  /\ forall (ReadOptions : Type) (options : option ReadOptions),
       readStream streamName options w'
       = (Ok (Build_ReadStreamResult 0%N (@nil E)), w').
Proof.
  intros Hparse Hcreate w'.
  destruct (appendToStream_accepted AccountId_parse StreamId_create category
              streamName accountId streamId (e :: events) w Hparse Hcreate)
    as (w1 & Hrun & _ & Hevents & _).
  subst w'. rewrite Hrun. cbn [snd]. split; [exact Hevents|reflexivity].
Qed.

Lemma readStream_after_append_witness :
  let w' := snd (appendToStream accept accept Service.category sample_stream
                   sample_batch (single_stream sample_stream [])) in
  events_of w' sample_stream = sample_batch
  /\ forall (ReadOptions : Type) (options : option ReadOptions),
       readStream sample_stream options w'
       = (Ok (Build_ReadStreamResult 0%N (@nil Event)), w').
Proof.
  exact (readStream_after_append accept accept Service.category
           sample_stream sample_stream sample_stream
           (Opened Open (js "John Do e") (num_of_Z 0))
           [Deposited (num_of_Z 100); Deposited (num_of_Z 140);
            Deposited (num_of_Z 90)]
           (single_stream sample_stream []) eq_refl eq_refl).
Defined.

(** X17. The adapter applies no decision rule.  Once the transaction of
    an [appendToStream] under an accepted name has run, for any batch of
    events whose amounts are finite numbers other than -0, the balance the
    service reads for that stream is the fold of the batch from the
    balance it read before, open account or not, sufficient funds or not;
    and that balance is the one [fold] gives on the run-time values, from
    the balance read before, over the batch as the codec reads it back. *)
Theorem adapter_state_after_append
  (AccountId_parse StreamId_create : jstring -> result jstring)
  (streamName accountId streamId reader : jstring) (events : list Event)
  (w : World Event) :
  AccountId_parse streamName = Ok accountId ->
  StreamId_create streamName = Ok streamId ->
  Forall (fun e => lossless (event_amount e)) events ->
  let service := Service.create streamId in
  let w' := snd (appendToStream AccountId_parse StreamId_create Service.category
                   streamName events w) in
  Service.readBalance service reader w'
  = Fold.fold (Service.readBalance service reader w) events
  /\ (let* stored := read_back_all (List.map Codec.value_of events) in
      RunTime.Fold.fold (state_value (Service.readBalance service reader w)) stored)
     = Ok (state_value (Service.readBalance service reader w')).
Proof.
  intros Hparse Hcreate Hlossless service w'.
  assert (Hread : Service.readBalance service reader w'
                  = Fold.fold (Service.readBalance service reader w) events).
  { destruct (appendToStream_accepted AccountId_parse StreamId_create
                Service.category streamName accountId streamId events w
                Hparse Hcreate)
      as (w1 & Hrun & _ & Hevents & _).
    subst w'. rewrite Hrun. cbn [snd].
    unfold service, Service.readBalance, query, load. cbn [fst].
    cbn [Service.create Service.resolve decider_stream decider_category
         Service.category category_fold category_initial].
    now rewrite Hevents, fold_app. }
  split; [exact Hread|].
  rewrite (StoreFacts.read_back_all_typed events Hlossless). cbn [bind].
  now rewrite StoreFacts.fold_typed, Hread.
Qed.

Lemma adapter_state_after_append_witness :
  Service.readBalance (Service.create sample_stream) sample_stream
    (snd (appendToStream accept accept Service.category sample_stream
            [Withdrawn (num_of_Z 50)] (single_stream sample_stream [])))
  = Fold.fold Fold.initial [Withdrawn (num_of_Z 50)].
Proof.
  refine (proj1 (adapter_state_after_append accept accept sample_stream
                   sample_stream sample_stream sample_stream
                   [Withdrawn (num_of_Z 50)]
                   (single_stream sample_stream []) eq_refl eq_refl _)).
  constructor; [|constructor].
  split; [reflexivity|]. split; [reflexivity|discriminate].
Defined.

(** X18. A command the decision rejects writes nothing.  On a stream whose
    state is not Open, [deposit] and [withdraw] of the service fail with
    "Account is not open"; on an open account whose balance is less than
    the amount, [withdraw] fails with "Insufficient funds".  In each case
    the streams are as they were, and the transaction is recorded with the
    error as its outcome.  The stream is the one the service was created
    for, whatever account identifier the call passes. *)
Theorem service_rejected_command (stream accountId : jstring) (amount : number)
  (w : World Event) :
  let service := Service.create stream in
  let state := Service.readBalance service accountId w in
  let rejected (err : exn) :=
    (Throw (A := unit) err,
     mkWorld (streams w) (calls w ++ [Transaction stream (Throw err)])) in
  (Fold.status state <> Open ->
   Service.deposit service accountId amount w
   = rejected (Error (js "Account is not open"))
   /\ Service.withdraw service accountId amount w
      = rejected (Error (js "Account is not open")))
  /\ (Fold.status state = Open -> num_lt (Fold.amount state) amount = true ->
      Service.withdraw service accountId amount w
      = rejected (Error (js "Insufficient funds"))).
Proof.
  intros service state rejected. split.
  - intros Hstatus.
    assert (Hneg : negb (Decide.status_eqb (Fold.status state) Open) = true)
      by (destruct (Fold.status state); try reflexivity; now elim Hstatus).
    split; apply (StoreFacts.transact_throw (forStream Service.category stream));
      unfold Decide.deposit, Decide.withdraw;
      change (fst (load (forStream Service.category stream) w)) with state;
      now rewrite Hneg.
  - intros Hstatus Hlt.
    apply (StoreFacts.transact_throw (forStream Service.category stream)).
    unfold Decide.withdraw.
    change (fst (load (forStream Service.category stream) w)) with state.
    now rewrite Hstatus, Hlt.
Qed.

Lemma service_rejected_command_witness :
  Service.deposit (Service.create sample_stream) sample_stream (num_of_Z 100)
    (single_stream sample_stream [])
  = (Throw (Error (js "Account is not open")),
     mkWorld (streams (single_stream sample_stream []))
       [Transaction sample_stream (Throw (Error (js "Account is not open")))])
  /\ Service.withdraw (Service.create sample_stream) sample_stream (num_of_Z 50)
       (single_stream sample_stream [Opened Open (js "Alice") (num_of_Z 0)])
     = (Throw (Error (js "Insufficient funds")),
        mkWorld (streams (single_stream sample_stream
                            [Opened Open (js "Alice") (num_of_Z 0)]))
          [Transaction sample_stream (Throw (Error (js "Insufficient funds")))]).
Proof.
  split.
  - refine (proj1 (proj1 (service_rejected_command sample_stream sample_stream
                            (num_of_Z 100) (single_stream sample_stream [])) _)).
    discriminate.
  - exact (proj2 (service_rejected_command sample_stream sample_stream
                    (num_of_Z 50)
                    (single_stream sample_stream
                       [Opened Open (js "Alice") (num_of_Z 0)]))
             eq_refl eq_refl).
Defined.

(** X19. A command the decision accepts appends one event.  [open] is
    accepted in every state, an open account included; [deposit] on an
    open account; [withdraw] on an open account whose balance is not less
    than the amount.  For an amount that is a finite number other than
    -0 the call succeeds, the stream holds the decided event after what
    it held, the balance read afterwards is [evolve] of the balance read
    before and that event, and it is the balance [evolve] gives on the
    run-time values for the event as the codec reads it back. *)
Theorem service_accepted_command (stream accountId : jstring) (w : World Event) :
  let service := Service.create stream in
  let state := Service.readBalance service accountId w in
  let accepted (e : Event) (outcome : result unit * World Event) :=
    fst outcome = Ok tt
    /\ events_of (snd outcome) stream = events_of w stream ++ [e]
    /\ Service.readBalance service accountId (snd outcome) = Fold.evolve state e
    /\ (let* stored := read_back (Codec.value_of e) in
        RunTime.Fold.evolve (state_value state) stored)
       = Ok (state_value (Service.readBalance service accountId (snd outcome))) in
  (forall name,
     accepted (Opened Open name (num_of_Z 0)) (Service.open service accountId name w))
  /\ (forall amount,
        lossless amount -> Fold.status state = Open ->
        accepted (Deposited amount) (Service.deposit service accountId amount w))
  /\ (forall amount,
        lossless amount ->
        Fold.status state = Open -> num_lt (Fold.amount state) amount = false ->
        accepted (Withdrawn amount) (Service.withdraw service accountId amount w)).
Proof.
  intros service state accepted.
  assert (Hone : forall decide e,
             lossless (event_amount e) ->
             decide state = Ok [e] ->
             accepted e (transact (forStream Service.category stream) decide w)).
  { intros decide e Hlossless Hdecide.
    rewrite (StoreFacts.transact_one (forStream Service.category stream) decide w e
               Hdecide).
    unfold accepted. cbn [fst snd decider_stream].
    set (w1 := mkWorld (append_events w stream [e]) _).
    assert (Hread : Service.readBalance service accountId w1 = Fold.evolve state e)
      by apply StoreFacts.read_after_one.
    split; [reflexivity|]. split; [|split].
    - unfold events_of. cbn. unfold append_events. now rewrite str_eqb_refl.
    - exact Hread.
    - rewrite Hread, (StoreFacts.read_back_typed e Hlossless). cbn [bind].
      apply RunTimeFacts.evolve_typed. }
  split; [|split].
  - intros name. apply Hone; [|reflexivity].
    split; [reflexivity|]. split; [reflexivity|discriminate].
  - intros amount Hlossless Hstatus. apply Hone; [exact Hlossless|].
    unfold Decide.deposit. now rewrite Hstatus.
  - intros amount Hlossless Hstatus Hlt. apply Hone; [exact Hlossless|].
    unfold Decide.withdraw. now rewrite Hstatus, Hlt.
Qed.

Lemma service_accepted_command_witness :
  Service.readBalance (Service.create sample_stream) sample_stream
    (snd (Service.deposit (Service.create sample_stream) sample_stream (num_of_Z 100)
            (single_stream sample_stream [Opened Open (js "Alice") (num_of_Z 0)])))
  = Fold.evolve (Fold.mkState Open (js "Alice") (num_of_Z 0))
      (Deposited (num_of_Z 100)).
Proof.
  refine (proj1 (proj2 (proj2 (proj1 (proj2 (service_accepted_command sample_stream
                                       sample_stream
                                       (single_stream sample_stream
                                          [Opened Open (js "Alice") (num_of_Z 0)])))
                         (num_of_Z 100) _ eq_refl)))).
  split; [reflexivity|]. split; [reflexivity|discriminate].
Defined.
